(** * AES Integer Counter Mode over wolfSSL (crypto/cipher/aes_icm_wssl.c)

    A shallow embedding of the wolfSSL back end of libsrtp's AES-ICM cipher
    engine, and the properties of its five operations: allocate, deallocate,
    initialise with key and salt, set the per-packet IV, and encrypt.

    Conventions of the embedding.
    - An octet is a [Z]; the only arithmetic the engine does on octets is
      exclusive-or ([Z.lxor]), which never leaves the octet range.
    - [size_t] and [int] values are [Z]; the engine only compares them.
    - A C pointer that may be [NULL] is an [option]; the engine owns its
      state and the state owns its AES context, so the pointee is held in
      place of the address.
    - A buffer is the list of the octets that are readable (or writable)
      from the pointer; reading past its end is undefined behaviour in C
      and makes the embedded function return no result.
    - The debug_print calls write to the log only and are left out. *)

From Stdlib Require Import ZArith Lia String.
From stdpp Require Import base option list relations.

Local Open Scope Z_scope.

(** ** Status codes, identifiers and lengths *)

(** Modelled from the spec: the status type of err.h, which is not part
    of the sources, with the seven codes this file returns; the spec's
    error taxonomy names five of them, the source adds ok and the general
    failure. *)
Inductive srtp_err_status_t : Set :=
  | srtp_err_status_ok
  | srtp_err_status_fail
  | srtp_err_status_bad_param
  | srtp_err_status_alloc_fail
  | srtp_err_status_init_fail
  | srtp_err_status_cipher_fail
  | srtp_err_status_buffer_small.

(** Modelled from the spec: the algorithm identifiers of crypto_types.h,
    which is not part of the sources: AES-ICM-128, AES-ICM-192 and
    AES-ICM-256, under the names the source binds. *)
Inductive srtp_cipher_type_id_t : Set :=
  | SRTP_AES_ICM_128
  | SRTP_AES_ICM_192
  | SRTP_AES_ICM_256.

(** Modelled from the spec: the direction argument of set_iv (cipher.h is
    not part of the sources); the spec names encrypt and decrypt. *)
Inductive srtp_cipher_direction_t : Set :=
  | srtp_direction_encrypt
  | srtp_direction_decrypt.

(** The conversion of a [size_t] argument to a parameter of wolfSSL's
    32-bit type [word32]: the value modulo 2^32. *)
Definition word32 (n : Z) : Z := n mod 2 ^ 32.

(** The mode argument of wolfSSL's key setup. *)
Inductive aes_dir : Set :=
  | AES_ENCRYPTION
  | AES_DECRYPTION.

(** Modelled from the spec: the length constants of cipher_types.h and
    crypto_types.h, which are not part of the sources. The spec gives the
    combined key+salt lengths 30, 38 and 46, the AES key lengths 16, 24 and
    32, and the 112-bit (14 byte) salt. *)
Definition SRTP_SALT_LEN : Z := 14.
Definition SRTP_AES_128_KEY_LEN : Z := 16.
Definition SRTP_AES_192_KEY_LEN : Z := 24.
Definition SRTP_AES_256_KEY_LEN : Z := 32.
Definition SRTP_AES_ICM_128_KEY_LEN_WSALT : Z := SRTP_SALT_LEN + SRTP_AES_128_KEY_LEN.
Definition SRTP_AES_ICM_192_KEY_LEN_WSALT : Z := SRTP_SALT_LEN + SRTP_AES_192_KEY_LEN.
Definition SRTP_AES_ICM_256_KEY_LEN_WSALT : Z := SRTP_SALT_LEN + SRTP_AES_256_KEY_LEN.

(** The address of one of the three descriptors, as stored in a cipher's
    [type] field. *)
Inductive srtp_cipher_type_ptr : Set :=
  | addr_srtp_aes_icm_128
  | addr_srtp_aes_icm_192
  | addr_srtp_aes_icm_256.

(** The address of one of the three self-test vectors of
    cipher_test_cases.h. *)
Inductive srtp_cipher_test_case_ptr : Set :=
  | addr_srtp_aes_icm_128_test_case_0
  | addr_srtp_aes_icm_192_test_case_0
  | addr_srtp_aes_icm_256_test_case_0.

(** ** The 128-bit block value (datatypes.h) *)

(** The [v8] view of the union [v128_t]: sixteen octets. *)
Abbreviation v128_t := (list Z) (only parsing).

(** Modelled from the spec: the Block128 operation zero() (the macro
    v128_set_to_zero of datatypes.h, not part of the sources). *)
Definition v128_set_to_zero (x : v128_t) : v128_t := replicate 16 0.

(** Modelled from the spec: the Block128 operation copy_from(bytes) (the
    macro v128_copy_octet_string of datatypes.h, not part of the sources):
    it reads sixteen octets. *)
Definition v128_copy_octet_string (s : list Z) : option v128_t :=
  if decide (16 ≤ length s)%nat then Some (take 16 s) else None.

(** Modelled from the spec: the Block128 operation xor(a, b) (the macro
    v128_xor of datatypes.h, not part of the sources). *)
Definition v128_xor (x y : v128_t) : v128_t := zip_with Z.lxor x y.

(** libc's memcpy of [n] octets from [src] over the start of [dst]. *)
Definition memcpy (dst src : list Z) (n : nat) : option (list Z) :=
  if decide (n ≤ length src ∧ n ≤ length dst)%nat
  then Some (take n src ++ drop n dst)
  else None.

(** ** The external block-cipher primitive

    wolfSSL's AES is not part of this repository: the engine is verified
    against any implementation of these four entry points. [Aes] is the
    content of wolfSSL's context structure. Every entry point returns
    wolfSSL's [int] result (negative on error) and what the context holds
    afterwards; the transform also returns the output buffer. *)
Class wolfcrypt : Type := {
  Aes : Type;
  (** wc_AesInit(aes, NULL, INVALID_DEVID) on newly allocated storage *)
  wc_AesInit : Aes → Z * Aes;
  (** wc_AesFree(aes) *)
  wc_AesFree : Aes → Aes;
  (** wc_AesSetKey(aes, key, len, iv, dir), with [len] a [word32] *)
  wc_AesSetKey : option Aes → list Z → Z → list Z → aes_dir → Z * option Aes;
  (** wc_AesCtrEncrypt(aes, out, in, sz), with [sz] a [word32] *)
  wc_AesCtrEncrypt : option Aes → list Z → list Z → Z → Z * option Aes * list Z;
}.

Section Engine.
Context `{W : wolfcrypt}.

(** ** The engine state and the cipher object *)

(** Modelled from the spec: the engine state of aes_icm_ext.h, which is not
    part of the sources (IcmEngineState in the spec), with the five fields
    the source reads and writes. *)
Record srtp_aes_icm_ctx_t : Type := mk_icm {
  counter : v128_t;
  offset : v128_t;
  key : list Z;
  key_size : Z;
  ctx : option Aes;
}.

(** Modelled from the spec: the cipher object of cipher_types.h, which is
    not part of the sources, with the four fields allocate binds. *)
Record srtp_cipher_t : Type := mk_cipher {
  type : srtp_cipher_type_ptr;
  state : option srtp_aes_icm_ctx_t;
  key_len : Z;
  algorithm : srtp_cipher_type_id_t;
}.

Definition set_counter (v : v128_t) (c : srtp_aes_icm_ctx_t) :=
  mk_icm v (offset c) (key c) (key_size c) (ctx c).
Definition set_offset (v : v128_t) (c : srtp_aes_icm_ctx_t) :=
  mk_icm (counter c) v (key c) (key_size c) (ctx c).
Definition set_key (k : list Z) (c : srtp_aes_icm_ctx_t) :=
  mk_icm (counter c) (offset c) k (key_size c) (ctx c).
Definition set_key_size (n : Z) (c : srtp_aes_icm_ctx_t) :=
  mk_icm (counter c) (offset c) (key c) n (ctx c).
Definition set_ctx (a : option Aes) (c : srtp_aes_icm_ctx_t) :=
  mk_icm (counter c) (offset c) (key c) (key_size c) a.

Definition set_type (t : srtp_cipher_type_ptr) (c : srtp_cipher_t) :=
  mk_cipher t (state c) (key_len c) (algorithm c).
Definition set_state (s : option srtp_aes_icm_ctx_t) (c : srtp_cipher_t) :=
  mk_cipher (type c) s (key_len c) (algorithm c).
Definition set_key_len (n : Z) (c : srtp_cipher_t) :=
  mk_cipher (type c) (state c) n (algorithm c).
Definition set_algorithm (a : srtp_cipher_type_id_t) (c : srtp_cipher_t) :=
  mk_cipher (type c) (state c) (key_len c) a.

(** Modelled from the spec: octet_string_set_to_zero (datatypes.c, not part
    of the sources) applied to the whole engine state: every octet of the
    structure becomes zero, which reads as zero for [key_size] and as
    [NULL] for [ctx]. *)
Definition octet_string_set_to_zero (c : srtp_aes_icm_ctx_t) : srtp_aes_icm_ctx_t :=
  mk_icm ((λ _, 0) <$> counter c) ((λ _, 0) <$> offset c) ((λ _, 0) <$> key c) 0 None.

(** ** The allocation service (alloc.h)

    Storage comes from a generic allocate/free service. A request either
    fails ([NULL]) or yields new storage whose content is unspecified;
    [fresh_mem] gives that content as seen through each of the three
    structure types the engine casts it to. Released storage is recorded
    with the content it had when it was released. *)
Record fresh_mem : Type := mk_fresh {
  as_cipher : srtp_cipher_t;
  as_icm : srtp_aes_icm_ctx_t;
  as_Aes : Aes;
}.

Inductive object : Type :=
  | obj_cipher (c : srtp_cipher_t)
  | obj_icm (s : srtp_aes_icm_ctx_t)
  | obj_Aes (a : Aes).

Record world : Type := mk_world {
  supply : list (option fresh_mem);
  released : list object;
}.

(** State passing over the allocation service; no result stands for
    undefined behaviour of the C program. *)
Definition M (A : Type) : Type := world → option (A * world).

Global Instance M_ret : MRet M := λ A (x : A) (w : world), Some (x, w).
Global Instance M_bind : MBind M := λ A B (f : A → M B) (m : M A) (w : world),
  match m w with
  | Some (x, w') => f x w'
  | None => None
  end.

(** A read or write that C leaves undefined yields no result. *)
Definition defined {A : Type} (o : option A) : M A := λ w,
  match o with
  | Some x => Some (x, w)
  | None => None
  end.

(** Modelled from the spec: srtp_crypto_alloc of alloc.h, which is not part
    of the sources: the next request is granted or refused as the service
    decides, and a service with nothing left refuses. *)
Definition srtp_crypto_alloc : M (option fresh_mem) := λ w,
  match supply w with
  | [] => Some (None, w)
  | m :: rest => Some (m, mk_world rest (released w))
  end.

(** Modelled from the spec: srtp_crypto_free of alloc.h, which is not part
    of the sources. *)
Definition srtp_crypto_free (o : object) : M unit := λ w,
  Some ((), mk_world (supply w) (released w ++ [o])).

(** ** allocate *)

(** [c] is what the caller's slot [*c] holds before the call; the result
    carries what it holds afterwards. The state pointer stored in the
    cipher and the local [icm] name the same storage, so the writes through
    [icm] that follow the store are made before it here. *)
Definition srtp_aes_icm_wolfssl_alloc (c : option srtp_cipher_t) (key_len tlen : Z)
  : M (srtp_err_status_t * option srtp_cipher_t) :=
  if negb (key_len =? SRTP_AES_ICM_128_KEY_LEN_WSALT) &&
     negb (key_len =? SRTP_AES_ICM_192_KEY_LEN_WSALT) &&
     negb (key_len =? SRTP_AES_ICM_256_KEY_LEN_WSALT)
  then mret (srtp_err_status_bad_param, c)
  else
    p ← srtp_crypto_alloc;
    match p with
    | None => mret (srtp_err_status_alloc_fail, None)
    | Some pm =>
      q ← srtp_crypto_alloc;
      match q with
      | None =>
        srtp_crypto_free (obj_cipher (as_cipher pm));;
        mret (srtp_err_status_alloc_fail, None)
      | Some qm =>
        let icm := set_ctx None (as_icm qm) in
        let cv := as_cipher pm in
        let '(cv, icm) :=
          if key_len =? SRTP_AES_ICM_128_KEY_LEN_WSALT then
            (set_type addr_srtp_aes_icm_128 (set_algorithm SRTP_AES_ICM_128 cv),
             set_key_size SRTP_AES_128_KEY_LEN icm)
          else if key_len =? SRTP_AES_ICM_192_KEY_LEN_WSALT then
            (set_type addr_srtp_aes_icm_192 (set_algorithm SRTP_AES_ICM_192 cv),
             set_key_size SRTP_AES_192_KEY_LEN icm)
          else if key_len =? SRTP_AES_ICM_256_KEY_LEN_WSALT then
            (set_type addr_srtp_aes_icm_256 (set_algorithm SRTP_AES_ICM_256 cv),
             set_key_size SRTP_AES_256_KEY_LEN icm)
          else (cv, icm) in
        let cv := set_state (Some icm) cv in
        let cv := set_key_len key_len cv in
        mret (srtp_err_status_ok, Some cv)
      end
    end.

(** ** deallocate *)

(** The cipher's storage is released last; by then the state it points to
    holds the zeroised content. *)
Definition srtp_aes_icm_wolfssl_dealloc (c : option srtp_cipher_t) : M srtp_err_status_t :=
  match c with
  | None => mret srtp_err_status_bad_param
  | Some cv =>
    match state cv with
    | Some st =>
      match ctx st with
      | Some a => srtp_crypto_free (obj_Aes (wc_AesFree a))
      | None => mret ()
      end;;
      let z := octet_string_set_to_zero st in
      srtp_crypto_free (obj_icm z);;
      srtp_crypto_free (obj_cipher (set_state (Some z) cv));;
      mret srtp_err_status_ok
    | None =>
      srtp_crypto_free (obj_cipher cv);;
      mret srtp_err_status_ok
    end
  end.

(** ** initialize *)

(** [key_in] is the caller's buffer: the key followed by the salt. *)
Definition srtp_aes_icm_wolfssl_context_init (c : srtp_aes_icm_ctx_t) (key_in : list Z)
  : M (srtp_err_status_t * srtp_aes_icm_ctx_t) :=
  let body (c : srtp_aes_icm_ctx_t) : M (srtp_err_status_t * srtp_aes_icm_ctx_t) :=
    let c := set_counter (v128_set_to_zero (counter c)) c in
    let c := set_offset (v128_set_to_zero (offset c)) c in
    let salt := drop (Z.to_nat (key_size c)) key_in in
    v ← defined (memcpy (counter c) salt (Z.to_nat SRTP_SALT_LEN));
    let c := set_counter v c in
    v ← defined (memcpy (offset c) salt (Z.to_nat SRTP_SALT_LEN));
    let c := set_offset v c in
    let c := set_offset (<[Z.to_nat SRTP_SALT_LEN := 0]>
                           (<[Z.to_nat (SRTP_SALT_LEN + 1) := 0]> (offset c))) c in
    let c := set_counter (<[Z.to_nat SRTP_SALT_LEN := 0]>
                            (<[Z.to_nat (SRTP_SALT_LEN + 1) := 0]> (counter c))) c in
    if (key_size c =? SRTP_AES_256_KEY_LEN) ||
       (key_size c =? SRTP_AES_192_KEY_LEN) ||
       (key_size c =? SRTP_AES_128_KEY_LEN)
    then
      if key_size c >? Z.of_nat (length (key c))
      then mret (srtp_err_status_bad_param, c)
      else
        k ← defined (memcpy (key c) key_in (Z.to_nat (key_size c)));
        mret (srtp_err_status_ok, set_key k c)
    else mret (srtp_err_status_bad_param, c) in
  match ctx c with
  | None =>
    p ← srtp_crypto_alloc;
    match p with
    | None => mret (srtp_err_status_alloc_fail, set_ctx None c)
    | Some pm =>
      let '(err, a) := wc_AesInit (as_Aes pm) in
      if err <? 0 then
        srtp_crypto_free (obj_Aes a);;
        mret (srtp_err_status_init_fail, set_ctx None c)
      else body (set_ctx (Some a) c)
    end
  | Some _ => body c
  end.

(** ** set_iv *)

(** The key length goes to the primitive as a [word32]. *)
Definition srtp_aes_icm_wolfssl_set_iv (c : srtp_aes_icm_ctx_t) (iv : list Z)
    (dir : srtp_cipher_direction_t)
  : option (srtp_err_status_t * srtp_aes_icm_ctx_t) :=
  nonce ← v128_copy_octet_string iv;
  let c := set_counter (v128_xor (offset c) nonce) c in
  let '(err, a) :=
    wc_AesSetKey (ctx c) (key c) (word32 (key_size c)) (counter c) AES_ENCRYPTION in
  let c := set_ctx a c in
  if err <? 0 then Some (srtp_err_status_fail, c)
  else Some (srtp_err_status_ok, c).

(** ** encrypt *)

(** [dst_len] is the pointer to the capacity, [None] when it is [NULL].
    The result is the status, the engine, the destination buffer and the
    value at [dst_len] after the call. The length goes to the primitive
    as a [word32]; what is stored at [dst_len] is the [size_t]. *)
Definition srtp_aes_icm_wolfssl_encrypt (c : srtp_aes_icm_ctx_t) (src : list Z)
    (src_len : Z) (dst : list Z) (dst_len : option Z)
  : srtp_err_status_t * srtp_aes_icm_ctx_t * list Z * option Z :=
  match dst_len with
  | None => (srtp_err_status_bad_param, c, dst, dst_len)
  | Some cap =>
    if cap <? src_len then (srtp_err_status_buffer_small, c, dst, dst_len)
    else
      let '(err, a, dst') := wc_AesCtrEncrypt (ctx c) dst src (word32 src_len) in
      let c := set_ctx a c in
      if err <? 0 then (srtp_err_status_cipher_fail, c, dst', dst_len)
      else (srtp_err_status_ok, c, dst', Some src_len)
  end.

(** ** The descriptors *)

(** Modelled from the spec: the descriptor type of cipher_types.h, which is
    not part of the sources (CipherType in the spec); the fields follow the
    order of the initialisers in the source. *)
Record srtp_cipher_type_t : Type := mk_cipher_type {
  alloc : option srtp_cipher_t → Z → Z → M (srtp_err_status_t * option srtp_cipher_t);
  dealloc : option srtp_cipher_t → M srtp_err_status_t;
  init : srtp_aes_icm_ctx_t → list Z → M (srtp_err_status_t * srtp_aes_icm_ctx_t);
  set_aad : option (srtp_aes_icm_ctx_t → list Z → Z → srtp_err_status_t * srtp_aes_icm_ctx_t);
  encrypt : srtp_aes_icm_ctx_t → list Z → Z → list Z → option Z →
            srtp_err_status_t * srtp_aes_icm_ctx_t * list Z * option Z;
  decrypt : srtp_aes_icm_ctx_t → list Z → Z → list Z → option Z →
            srtp_err_status_t * srtp_aes_icm_ctx_t * list Z * option Z;
  set_iv : srtp_aes_icm_ctx_t → list Z → srtp_cipher_direction_t →
           option (srtp_err_status_t * srtp_aes_icm_ctx_t);
  description : string;
  test_data : srtp_cipher_test_case_ptr;
  type_id : srtp_cipher_type_id_t;
}.

Definition srtp_aes_icm_128_wolfssl_description : string :=
  "AES-128 counter mode using wolfSSL".
Definition srtp_aes_icm_192_wolfssl_description : string :=
  "AES-192 counter mode using wolfSSL".
Definition srtp_aes_icm_256_wolfssl_description : string :=
  "AES-256 counter mode using wolfSSL".

Definition srtp_aes_icm_128 : srtp_cipher_type_t := {|
  alloc := srtp_aes_icm_wolfssl_alloc;
  dealloc := srtp_aes_icm_wolfssl_dealloc;
  init := srtp_aes_icm_wolfssl_context_init;
  set_aad := None;
  encrypt := srtp_aes_icm_wolfssl_encrypt;
  decrypt := srtp_aes_icm_wolfssl_encrypt;
  set_iv := srtp_aes_icm_wolfssl_set_iv;
  description := srtp_aes_icm_128_wolfssl_description;
  test_data := addr_srtp_aes_icm_128_test_case_0;
  type_id := SRTP_AES_ICM_128;
|}.

Definition srtp_aes_icm_192 : srtp_cipher_type_t := {|
  alloc := srtp_aes_icm_wolfssl_alloc;
  dealloc := srtp_aes_icm_wolfssl_dealloc;
  init := srtp_aes_icm_wolfssl_context_init;
  set_aad := None;
  encrypt := srtp_aes_icm_wolfssl_encrypt;
  decrypt := srtp_aes_icm_wolfssl_encrypt;
  set_iv := srtp_aes_icm_wolfssl_set_iv;
  description := srtp_aes_icm_192_wolfssl_description;
  test_data := addr_srtp_aes_icm_192_test_case_0;
  type_id := SRTP_AES_ICM_192;
|}.

Definition srtp_aes_icm_256 : srtp_cipher_type_t := {|
  alloc := srtp_aes_icm_wolfssl_alloc;
  dealloc := srtp_aes_icm_wolfssl_dealloc;
  init := srtp_aes_icm_wolfssl_context_init;
  set_aad := None;
  encrypt := srtp_aes_icm_wolfssl_encrypt;
  decrypt := srtp_aes_icm_wolfssl_encrypt;
  set_iv := srtp_aes_icm_wolfssl_set_iv;
  description := srtp_aes_icm_256_wolfssl_description;
  test_data := addr_srtp_aes_icm_256_test_case_0;
  type_id := SRTP_AES_ICM_256;
|}.

(** The descriptor a cipher's [type] field points to. *)
Definition descriptor_at (p : srtp_cipher_type_ptr) : srtp_cipher_type_t :=
  match p with
  | addr_srtp_aes_icm_128 => srtp_aes_icm_128
  | addr_srtp_aes_icm_192 => srtp_aes_icm_192
  | addr_srtp_aes_icm_256 => srtp_aes_icm_256
  end.

End Engine.

(** ** The contract of counter mode

    What the engine relies on from the external primitive, for a keystream
    function [keystream key iv n] giving the first [n] keystream octets
    for a key and a starting counter block. *)
Class ctr_mode_laws `{W : wolfcrypt} (keystream : list Z → list Z → nat → list Z)
  : Prop := {
  keystream_length : ∀ k iv n, length (keystream k iv n) = n;
  (** a successful transform of [sz] octets leaves the rest of the
      output buffer alone *)
  ctr_frame : ∀ a dst src sz e a' dst',
    wc_AesCtrEncrypt a dst src sz = (e, a', dst') → 0 ≤ e →
    0 ≤ sz → (Z.to_nat sz ≤ length src)%nat → (Z.to_nat sz ≤ length dst)%nat →
    length dst' = length dst ∧ drop (Z.to_nat sz) dst' = drop (Z.to_nat sz) dst;
  (** after a successful key setup, a successful transform combines its
      input with the keystream of the first [len] key octets and the
      starting block *)
  ctr_xor : ∀ a k len iv e1 a1 dst src sz e2 a2 dst',
    wc_AesSetKey a k len iv AES_ENCRYPTION = (e1, a1) → 0 ≤ e1 →
    wc_AesCtrEncrypt a1 dst src sz = (e2, a2, dst') → 0 ≤ e2 →
    0 ≤ sz → (Z.to_nat sz ≤ length src)%nat → (Z.to_nat sz ≤ length dst)%nat →
    take (Z.to_nat sz) dst' =
    zip_with Z.lxor (take (Z.to_nat sz) src) (keystream (take (Z.to_nat len) k) iv (Z.to_nat sz));
}.

(** ** A reference primitive

    A small stand-in for the external primitive, used to run the engine on
    concrete inputs: the context records the key and starting block it was
    programmed with, the keystream is a fixed mix of both, and a [NULL]
    context or an unsupported key length is rejected. *)
Module Ref.

Definition ctx_t : Type := option (list Z * list Z).

Definition idle : ctx_t := None.
Definition keyed (k iv : list Z) : ctx_t := Some (k, iv).

Definition BAD_FUNC_ARG : Z := -173.

Definition nth_octet (l : list Z) (i : nat) : Z :=
  default 0 (l !! (i `mod` length l)%nat).

Definition keystream (k iv : list Z) (n : nat) : list Z :=
  (λ i, Z.lxor (Z.lxor (nth_octet k i) (nth_octet iv i)) (Z.of_nat i `mod` 256)) <$> seq 0 n.

Definition AesInit (a : ctx_t) : Z * ctx_t := (0, None).

Definition AesFree (a : ctx_t) : ctx_t := None.

Definition AesSetKey (p : option ctx_t) (k : list Z) (len : Z) (iv : list Z)
    (dir : aes_dir)
  : Z * option ctx_t :=
  match p with
  | None => (BAD_FUNC_ARG, None)
  | Some _ =>
    if (len =? 16) || (len =? 24) || (len =? 32)
    then (0, Some (Some (take (Z.to_nat len) k, iv)))
    else (BAD_FUNC_ARG, p)
  end.

Definition AesCtrEncrypt (p : option ctx_t) (dst src : list Z) (sz : Z)
  : Z * option ctx_t * list Z :=
  match p with
  | Some (Some (k, iv)) =>
    (0, p, zip_with Z.lxor (take (Z.to_nat sz) src) (keystream k iv (Z.to_nat sz))
           ++ drop (Z.to_nat sz) dst)
  | _ => (BAD_FUNC_ARG, p, dst)
  end.

Definition prim : wolfcrypt := {|
  Aes := ctx_t;
  wc_AesInit := AesInit;
  wc_AesFree := AesFree;
  wc_AesSetKey := AesSetKey;
  wc_AesCtrEncrypt := AesCtrEncrypt;
|}.

End Ref.

(** ** Notions used in the statements *)

Definition all_zero (l : list Z) : bool := forallb (Z.eqb 0) l.

Section Notions.
Context `{W : wolfcrypt}.

(** The block both [offset] and [counter] hold once the salt is copied:
    the fourteen octets at [key_size] of the input, then two zero octets. *)
Definition salt_block (c : srtp_aes_icm_ctx_t) (key_in : list Z) : list Z :=
  take 14 (drop (Z.to_nat (key_size c)) key_in) ++ [0; 0].

(** [zeroised z st]: [z] is [st] with every octet overwritten by zero. *)
Definition zeroised (z st : srtp_aes_icm_ctx_t) : bool :=
  all_zero (counter z) && (length (counter z) =? length (counter st))%nat &&
  all_zero (offset z) && (length (offset z) =? length (offset st))%nat &&
  all_zero (key z) && (length (key z) =? length (key st))%nat &&
  (key_size z =? 0) &&
  match ctx z with None => true | Some _ => false end.

(** What deallocate releases of the block-cipher context. *)
Definition released_ctx (st : srtp_aes_icm_ctx_t) : list object :=
  match ctx st with
  | Some a => [obj_Aes (wc_AesFree a)]
  | None => []
  end.

End Notions.

(** ** Concrete inputs

    An allocation service with three grants of storage holding junk, the
    key and salt of the AES-128 self test, a nonce and a plaintext, and the
    engines they lead to, all over the reference primitive. *)
Module Ex.

Definition junk_icm : @srtp_aes_icm_ctx_t Ref.prim :=
  mk_icm (W := Ref.prim) (replicate 16 0xaa) (replicate 16 0xbb) (replicate 32 0xcc) 99 (Some Ref.idle).

Definition junk_cipher : @srtp_cipher_t Ref.prim :=
  mk_cipher (W := Ref.prim) addr_srtp_aes_icm_256 None 0 SRTP_AES_ICM_256.

Definition junk : @fresh_mem Ref.prim :=
  mk_fresh (W := Ref.prim) junk_cipher junk_icm (Ref.keyed [1] [2]).

Definition w0 : @world Ref.prim :=
  mk_world (W := Ref.prim) [Some junk; Some junk; Some junk] [].

(** No storage left. *)
Definition w_empty : @world Ref.prim := mk_world (W := Ref.prim) [] [].

Definition key_salt : list Z :=
  [0x2b; 0x7e; 0x15; 0x16; 0x28; 0xae; 0xd2; 0xa6;
   0xab; 0xf7; 0x15; 0x88; 0x09; 0xcf; 0x4f; 0x3c;
   0xf0; 0xf1; 0xf2; 0xf3; 0xf4; 0xf5; 0xf6; 0xf7;
   0xf8; 0xf9; 0xfa; 0xfb; 0xfc; 0xfd].

Definition nonce : list Z :=
  [0x00; 0x00; 0x00; 0x00; 0xde; 0xad; 0xbe; 0xef;
   0x00; 0x00; 0x00; 0x00; 0x00; 0x2a; 0x00; 0x00].

Definition plaintext : list Z :=
  [0x53; 0x52; 0x54; 0x50; 0x20; 0x70; 0x61; 0x79; 0x6c; 0x6f;
   0x61; 0x64; 0x20; 0x30; 0x31; 0x32; 0x33; 0x34; 0x35; 0x36].

(** The state of an engine as allocate leaves it for AES-128. *)
Definition allocated : @srtp_aes_icm_ctx_t Ref.prim :=
  mk_icm (W := Ref.prim) (replicate 16 0xaa) (replicate 16 0xbb) (replicate 32 0xcc) 16 None.

(** An engine with a key_size no variant has and no context yet. *)
Definition odd_sized : @srtp_aes_icm_ctx_t Ref.prim :=
  mk_icm (W := Ref.prim) (replicate 16 0xaa) (replicate 16 0xbb) (replicate 32 0xcc) 7 None.

(** The state after initialize with [key_salt]. *)
Definition initialized : @srtp_aes_icm_ctx_t Ref.prim :=
  mk_icm (W := Ref.prim) (drop 16 key_salt ++ [0; 0]) (drop 16 key_salt ++ [0; 0])
         (take 16 key_salt ++ replicate 16 0xcc) 16 (Some Ref.idle).

(** The state after set_iv with [nonce]. *)
Definition programmed : @srtp_aes_icm_ctx_t Ref.prim :=
  mk_icm (W := Ref.prim) (zip_with Z.lxor (drop 16 key_salt ++ [0; 0]) nonce)
         (drop 16 key_salt ++ [0; 0])
         (take 16 key_salt ++ replicate 16 0xcc) 16
         (Some (Ref.keyed (take 16 key_salt)
                          (zip_with Z.lxor (drop 16 key_salt ++ [0; 0]) nonce))).

(** A cipher as allocate leaves it for AES-128, once initialized. *)
Definition cipher : @srtp_cipher_t Ref.prim :=
  mk_cipher (W := Ref.prim) addr_srtp_aes_icm_128 (Some initialized) 30 SRTP_AES_ICM_128.

(** One packet through a newly allocated AES-128 engine: initialize,
    set_iv, then the encrypt entry over [src_len] octets of [src] into a
    zeroed buffer of 32 octets. *)
Definition packet (dir : srtp_cipher_direction_t) (src : list Z) (src_len : Z)
  : option (list Z) :=
  match init srtp_aes_icm_128 allocated key_salt w0 with
  | Some (srtp_err_status_ok, e, _) =>
    match set_iv srtp_aes_icm_128 e nonce dir with
    | Some (srtp_err_status_ok, f) =>
      match encrypt srtp_aes_icm_128 f src src_len (replicate 32 0) (Some 32) with
      | (srtp_err_status_ok, _, out, _) => Some out
      | _ => None
      end
    | _ => None
    end
  | _ => None
  end.

End Ex.

(** ** A primitive that declines

    The reference primitive, except that setting up a new context always
    fails; with an engine that has no context yet and an allocation
    service with one grant. *)
Module Declining.

Definition AesInit (a : Ref.ctx_t) : Z * Ref.ctx_t := (Ref.BAD_FUNC_ARG, a).

Definition prim : wolfcrypt := {|
  Aes := Ref.ctx_t;
  wc_AesInit := AesInit;
  wc_AesFree := Ref.AesFree;
  wc_AesSetKey := Ref.AesSetKey;
  wc_AesCtrEncrypt := Ref.AesCtrEncrypt;
|}.

Definition engine : @srtp_aes_icm_ctx_t prim :=
  mk_icm (W := prim) (replicate 16 0xaa) (replicate 16 0xbb) (replicate 32 0xcc) 16 None.

Definition junk : @fresh_mem prim :=
  mk_fresh (W := prim)
    (mk_cipher (W := prim) addr_srtp_aes_icm_256 None 0 SRTP_AES_ICM_256)
    engine (Ref.keyed [1] [2]).

Definition w1 : @world prim := mk_world (W := prim) [Some junk] [].

End Declining.

(** ** Sequences of calls

    One call of the per-packet operations on an engine, and one call of
    any of the three operations that work on an engine, whatever the
    arguments and whatever the status returned. *)
Section Steps.
Context `{W : wolfcrypt}.

Inductive packet_step : srtp_aes_icm_ctx_t → srtp_aes_icm_ctx_t → Prop :=
  | step_set_iv c iv dir st c' :
      srtp_aes_icm_wolfssl_set_iv c iv dir = Some (st, c') →
      packet_step c c'
  | step_encrypt c src src_len dst dst_len st c' dst' dst_len' :
      srtp_aes_icm_wolfssl_encrypt c src src_len dst dst_len = (st, c', dst', dst_len') →
      packet_step c c'.

Inductive api_step : srtp_aes_icm_ctx_t * world → srtp_aes_icm_ctx_t * world → Prop :=
  | step_init c key_in w st c' w' :
      srtp_aes_icm_wolfssl_context_init c key_in w = Some (st, c', w') →
      api_step (c, w) (c', w')
  | step_packet c c' w :
      packet_step c c' →
      api_step (c, w) (c', w).

(** The last two octets of a sixteen-octet block are zero. *)
Definition low_octets_zero (v : list Z) : bool :=
  (length v =? 16)%nat && all_zero (drop 14 v).

End Steps.

(** * Properties *)

Ltac run_M :=
  unfold mbind, M_bind, mret, M_ret, defined, srtp_crypto_alloc, srtp_crypto_free;
  simpl.

Section Properties.
Context `{W : wolfcrypt}.

(** ** allocate *)

(** C3. For every combined key+salt length other than 30, 38 and 46,
    allocate fails with bad_param, leaves the caller's slot as it was and
    requests no storage. For each of the three valid lengths, when both
    storage requests are granted, allocate succeeds and the new cipher
    carries the matching algorithm identifier and descriptor, the given
    combined length, and a state whose key_size is 16, 24 or 32 and whose
    block-cipher context is NULL. *)
Theorem alloc_checks_key_len (c : option srtp_cipher_t) (len tlen : Z) (w : world) :
  (len ≠ 30 → len ≠ 38 → len ≠ 46 →
   srtp_aes_icm_wolfssl_alloc c len tlen w = Some (srtp_err_status_bad_param, c, w))
  ∧
  (∀ id t ksz pm qm rest,
     (len, id, t, ksz) ∈
       [(30, SRTP_AES_ICM_128, addr_srtp_aes_icm_128, 16);
        (38, SRTP_AES_ICM_192, addr_srtp_aes_icm_192, 24);
        (46, SRTP_AES_ICM_256, addr_srtp_aes_icm_256, 32)] →
     supply w = Some pm :: Some qm :: rest →
     ∃ cv st,
       srtp_aes_icm_wolfssl_alloc c len tlen w
       = Some (srtp_err_status_ok, Some cv, mk_world rest (released w)) ∧
       algorithm cv = id ∧ type cv = t ∧ type_id (descriptor_at t) = id ∧
       key_len cv = len ∧
       state cv = Some st ∧ key_size st = ksz ∧ ctx st = None).
Proof.
  split.
  - intros H30 H38 H46. unfold srtp_aes_icm_wolfssl_alloc.
    replace (len =? SRTP_AES_ICM_128_KEY_LEN_WSALT) with false
      by (symmetry; apply Z.eqb_neq; exact H30).
    replace (len =? SRTP_AES_ICM_192_KEY_LEN_WSALT) with false
      by (symmetry; apply Z.eqb_neq; exact H38).
    replace (len =? SRTP_AES_ICM_256_KEY_LEN_WSALT) with false
      by (symmetry; apply Z.eqb_neq; exact H46).
    reflexivity.
  - intros id t ksz pm qm rest Hin Hsup.
    destruct w as [sup rel]; simpl in Hsup; subst sup.
    repeat (apply elem_of_cons in Hin as [Hin | Hin]);
      [ | | | apply elem_of_nil in Hin; contradiction ];
      injection Hin as -> -> -> ->;
      eexists _, _; (split; [cbv; reflexivity | ]); repeat split; reflexivity.
Qed.

(** ** deallocate *)

Lemma all_zero_const (l : list Z) : all_zero ((λ _, 0) <$> l) = true.
Proof. induction l as [| x l IH]; [reflexivity | exact IH]. Qed.

Lemma octet_string_set_to_zero_zeroised (st : srtp_aes_icm_ctx_t) :
  zeroised (octet_string_set_to_zero st) st = true.
Proof.
  unfold zeroised, octet_string_set_to_zero; simpl.
  rewrite !all_zero_const, !length_fmap, !Nat.eqb_refl. reflexivity.
Qed.

(** C8. Deallocate fails with bad_param on a NULL handle and on no other.
    On every other handle it returns ok; when the cipher has an engine
    state, the block-cipher context is released if there is one, then
    every octet of the state (counter, offset, key, key_size and the
    context pointer) is overwritten with zero, and only then the state's
    storage is released, followed by the cipher's own. *)
Theorem dealloc_zeroises (c : option srtp_cipher_t) (w : world) :
  match c with
  | None => srtp_aes_icm_wolfssl_dealloc c w = Some (srtp_err_status_bad_param, w)
  | Some cv =>
    ∃ w', srtp_aes_icm_wolfssl_dealloc c w = Some (srtp_err_status_ok, w') ∧
          supply w' = supply w ∧
          match state cv with
          | Some st =>
            ∃ z, zeroised z st = true ∧
                 released w' = released w ++ released_ctx st ++
                               [obj_icm z; obj_cipher (set_state (Some z) cv)]
          | None => released w' = released w ++ [obj_cipher cv]
          end
  end.
Proof.
  destruct c as [cv |]; [ | reflexivity ].
  unfold srtp_aes_icm_wolfssl_dealloc, released_ctx.
  destruct (state cv) as [st |]; [ destruct (ctx st) as [a |] | ]; run_M.
  - eexists; split; [reflexivity | split; [reflexivity | ] ].
    exists (octet_string_set_to_zero st); split.
    + apply octet_string_set_to_zero_zeroised.
    + simpl. rewrite <- !app_assoc. reflexivity.
  - eexists; split; [reflexivity | split; [reflexivity | ] ].
    exists (octet_string_set_to_zero st); split.
    + apply octet_string_set_to_zero_zeroised.
    + simpl. rewrite <- !app_assoc. reflexivity.
  - eexists; split; [reflexivity | split; reflexivity ].
Qed.

(** ** encrypt *)

(** C9. With a NULL dst_len, encrypt returns bad_param whatever the
    engine, the buffers, the length and the external primitive are; the
    engine and the destination buffer are as before the call. *)
Theorem encrypt_null_dst_len (c : srtp_aes_icm_ctx_t) (src : list Z) (src_len : Z)
    (dst : list Z) :
  srtp_aes_icm_wolfssl_encrypt c src src_len dst None
  = (srtp_err_status_bad_param, c, dst, None).
Proof. reflexivity. Qed.

(** C4. When the capacity at dst_len is strictly less than src_len,
    encrypt returns buffer_small; the destination buffer, the capacity and
    the engine are as before the call. *)
Theorem encrypt_buffer_small (c : srtp_aes_icm_ctx_t) (src : list Z) (src_len : Z)
    (dst : list Z) (cap : Z) :
  cap < src_len →
  srtp_aes_icm_wolfssl_encrypt c src src_len dst (Some cap)
  = (srtp_err_status_buffer_small, c, dst, Some cap).
Proof.
  intros Hlt. unfold srtp_aes_icm_wolfssl_encrypt.
  apply Z.ltb_lt in Hlt. rewrite Hlt. reflexivity.
Qed.

(** The three outcomes of encrypt once dst_len is not NULL and the
    capacity suffices. *)
Lemma encrypt_inv (c : srtp_aes_icm_ctx_t) (src : list Z) (src_len : Z)
    (dst : list Z) (dl : option Z) (c' : srtp_aes_icm_ctx_t) (dst' : list Z)
    (dl' : option Z) :
  srtp_aes_icm_wolfssl_encrypt c src src_len dst dl
  = (srtp_err_status_ok, c', dst', dl') →
  ∃ cap e, dl = Some cap ∧ src_len ≤ cap ∧ dl' = Some src_len ∧
           wc_AesCtrEncrypt (ctx c) dst src (word32 src_len) = (e, ctx c', dst') ∧ 0 ≤ e.
Proof.
  unfold srtp_aes_icm_wolfssl_encrypt. intros H.
  destruct dl as [cap |]; [ | discriminate ].
  destruct (cap <? src_len) eqn:Hcap; [discriminate | ].
  destruct (wc_AesCtrEncrypt (ctx c) dst src (word32 src_len)) as [[e a] d] eqn:Henc.
  destruct (e <? 0) eqn:He; [discriminate | ].
  injection H as <- <- <-.
  exists cap, e. apply Z.ltb_ge in Hcap, He. repeat split; assumption.
Qed.

Lemma word32_small (n : Z) : 0 ≤ n < 2 ^ 32 → word32 n = n.
Proof. intros H. unfold word32. apply Z.mod_small. exact H. Qed.

Lemma word32_range (n : Z) : 0 ≤ word32 n < 2 ^ 32.
Proof. unfold word32. apply Z.mod_pos_bound. reflexivity. Qed.

(** C5, where the code departs from it. For a src_len of 2^32 or more, a
    successful encrypt call stores all of src_len at dst_len, but the
    external transform was given src_len modulo 2^32, which is less; for
    an external primitive that keeps to the counter-mode contract, every
    octet of the destination buffer past the first src_len modulo 2^32 is
    as before the call, so fewer than src_len octets of output are
    written. *)
Theorem encrypt_narrows_src_len (keystream : list Z → list Z → nat → list Z)
    `{!ctr_mode_laws keystream}
    (c : srtp_aes_icm_ctx_t) (src : list Z) (src_len : Z) (dst : list Z)
    (cap : Z) (c' : srtp_aes_icm_ctx_t) (dst' : list Z) (dl' : option Z) :
  srtp_aes_icm_wolfssl_encrypt c src src_len dst (Some cap)
  = (srtp_err_status_ok, c', dst', dl') →
  2 ^ 32 ≤ src_len →
  (Z.to_nat (word32 src_len) ≤ length src)%nat →
  (Z.to_nat (word32 src_len) ≤ length dst)%nat →
  dl' = Some src_len ∧
  word32 src_len < src_len ∧
  (∃ e, wc_AesCtrEncrypt (ctx c) dst src (word32 src_len) = (e, ctx c', dst') ∧ 0 ≤ e) ∧
  length dst' = length dst ∧
  drop (Z.to_nat (word32 src_len)) dst' = drop (Z.to_nat (word32 src_len)) dst.
Proof.
  intros Hok Hbig Hsrc Hdst.
  apply encrypt_inv in Hok as (cap' & e & [= <-] & Hcap & Hdl & Henc & He).
  pose proof (word32_range src_len) as Hw.
  destruct (ctr_frame _ _ _ _ _ _ _ Henc He (proj1 Hw) Hsrc Hdst) as [Hlen Hrest].
  split; [exact Hdl | ]. split; [lia | ].
  split; [exists e; split; assumption | ].
  split; assumption.
Qed.

(** X18. Below 2^32 the length is passed on whole: a successful encrypt
    call with 0 <= src_len < 2^32 had a capacity of at least src_len,
    leaves src_len at dst_len, and leaves in the destination buffer what
    the external counter-mode transform produced for src and src_len; for
    an external primitive that keeps to the counter-mode contract, the
    destination buffer keeps its size and every octet of it past the first
    src_len is as before the call. *)
Theorem encrypt_writes_src_len (keystream : list Z → list Z → nat → list Z)
    `{!ctr_mode_laws keystream}
    (c : srtp_aes_icm_ctx_t) (src : list Z) (src_len : Z) (dst : list Z)
    (cap : Z) (c' : srtp_aes_icm_ctx_t) (dst' : list Z) (dl' : option Z) :
  srtp_aes_icm_wolfssl_encrypt c src src_len dst (Some cap)
  = (srtp_err_status_ok, c', dst', dl') →
  0 ≤ src_len < 2 ^ 32 →
  (Z.to_nat src_len ≤ length src)%nat →
  (Z.to_nat cap ≤ length dst)%nat →
  src_len ≤ cap ∧
  dl' = Some src_len ∧
  (∃ e, wc_AesCtrEncrypt (ctx c) dst src src_len = (e, ctx c', dst') ∧ 0 ≤ e) ∧
  length dst' = length dst ∧
  drop (Z.to_nat src_len) dst' = drop (Z.to_nat src_len) dst.
Proof.
  intros Hok Hnn Hsrc Hdst.
  apply encrypt_inv in Hok as (cap' & e & [= <-] & Hcap & Hdl & Henc & He).
  rewrite (word32_small _ Hnn) in Henc.
  assert ((Z.to_nat src_len ≤ length dst)%nat) as Hroom by lia.
  destruct (ctr_frame _ _ _ _ _ _ _ Henc He (proj1 Hnn) Hsrc Hroom) as [Hlen Hrest].
  repeat split; try assumption.
  exists e; split; assumption.
Qed.

(** ** set_iv *)

(** C1. For a 16-octet nonce and either direction, set_iv returns, and
    the engine's counter is then the octet-wise exclusive-or of the
    engine's offset with the nonce; the offset is kept, and the whole
    outcome is the same for the other direction. *)
Theorem set_iv_counter (c : srtp_aes_icm_ctx_t) (iv : list Z)
    (dir : srtp_cipher_direction_t) :
  length iv = 16%nat →
  ∃ st c',
    srtp_aes_icm_wolfssl_set_iv c iv dir = Some (st, c') ∧
    counter c' = zip_with Z.lxor (offset c) iv ∧
    (∀ i x y, offset c !! i = Some x → iv !! i = Some y →
              counter c' !! i = Some (Z.lxor x y)) ∧
    (length (offset c) = 16%nat → length (counter c') = 16%nat) ∧
    offset c' = offset c ∧
    ∀ dir', srtp_aes_icm_wolfssl_set_iv c iv dir' = Some (st, c').
Proof.
  intros Hlen. unfold srtp_aes_icm_wolfssl_set_iv, v128_copy_octet_string.
  rewrite decide_True by lia. simpl.
  rewrite take_ge by lia. unfold v128_xor.
  destruct (wc_AesSetKey (ctx c) (key c) (word32 (key_size c))
              (zip_with Z.lxor (offset c) iv) AES_ENCRYPTION) as [err a].
  assert (∀ i x y, offset c !! i = Some x → iv !! i = Some y →
                   zip_with Z.lxor (offset c) iv !! i = Some (Z.lxor x y)) as Hoct.
  { intros i x y Hx Hy. rewrite lookup_zip_with, Hx, Hy. reflexivity. }
  assert (length (offset c) = 16%nat →
          length (zip_with Z.lxor (offset c) iv) = 16%nat) as Hsz.
  { intros Hoff. rewrite length_zip_with. lia. }
  destruct (err <? 0); eexists _, _;
    (split; [reflexivity | ]); simpl; repeat split; auto.
Qed.

(** C7, as the code has it. When the external primitive rejects the key
    and counter block (a negative result of the key setup), set_iv returns
    the general failure status, which is not the cipher_fail status; the
    counter has been set all the same. *)
Theorem set_iv_rejected (c : srtp_aes_icm_ctx_t) (iv nonce : list Z)
    (dir : srtp_cipher_direction_t) :
  v128_copy_octet_string iv = Some nonce →
  (wc_AesSetKey (ctx c) (key c) (word32 (key_size c))
     (v128_xor (offset c) nonce) AES_ENCRYPTION).1 < 0 →
  ∃ c', srtp_aes_icm_wolfssl_set_iv c iv dir = Some (srtp_err_status_fail, c') ∧
        counter c' = v128_xor (offset c) nonce ∧
        srtp_err_status_fail ≠ srtp_err_status_cipher_fail.
Proof.
  intros Hiv Hrej. unfold srtp_aes_icm_wolfssl_set_iv. rewrite Hiv. simpl.
  destruct (wc_AesSetKey (ctx c) (key c) (word32 (key_size c))
              (v128_xor (offset c) nonce) AES_ENCRYPTION) as [err a].
  simpl in Hrej. apply Z.ltb_lt in Hrej. rewrite Hrej.
  eexists; split; [reflexivity | split; [reflexivity | discriminate] ].
Qed.

(** ** initialize *)

Lemma salt_copied (salt : list Z) :
  (14 ≤ length salt)%nat →
  <[14%nat := 0]> (<[15%nat := 0]> (take 14 salt ++ [0; 0]))
  = take 14 salt ++ [0; 0].
Proof.
  intros Hlen.
  assert (length (take 14 salt) = 14%nat) as Ht by (rewrite length_take; lia).
  rewrite !insert_app_r_alt by lia. rewrite Ht. reflexivity.
Qed.

Lemma key_size_cases (n : Z) :
  (n =? SRTP_AES_256_KEY_LEN) || (n =? SRTP_AES_192_KEY_LEN) ||
  (n =? SRTP_AES_128_KEY_LEN) = true ↔ n = 16 ∨ n = 24 ∨ n = 32.
Proof.
  unfold SRTP_AES_256_KEY_LEN, SRTP_AES_192_KEY_LEN, SRTP_AES_128_KEY_LEN.
  rewrite !orb_true_iff, !Z.eqb_eq. tauto.
Qed.

(** The part of initialize that follows the creation of the context. *)
Ltac init_body H :=
  let Hsalt := fresh "Hsalt" in
  let Hsize := fresh "Hsize" in
  let Hroom := fresh "Hroom" in
  let Hkey := fresh "Hkey" in
  unfold memcpy, mbind, M_bind, mret, M_ret, defined in H; simpl in H;
  change (Z.to_nat SRTP_SALT_LEN) with 14%nat in H;
  change (Z.to_nat (SRTP_SALT_LEN + 1)) with 15%nat in H;
  match type of H with
  | context [decide (?a ≤ ?b ∧ 14 ≤ 16)%nat] =>
    destruct (decide (a ≤ b ∧ 14 ≤ 16)%nat) as [[Hsalt _] |]; [ | discriminate H ]
  end;
  simpl in H; rewrite !salt_copied in H by exact Hsalt;
  right; right; split; [exact Hsalt | ];
  match type of H with
  | context [(?x =? _) || _ || _] =>
    destruct ((x =? SRTP_AES_256_KEY_LEN) || (x =? SRTP_AES_192_KEY_LEN) ||
              (x =? SRTP_AES_128_KEY_LEN)) eqn:Hsize
  end;
  [ apply key_size_cases in Hsize;
    match type of H with
    | context [?x >? ?y] => destruct (x >? y) eqn:Hroom
    end;
    [ injection H as <- <- <-; simpl; unfold salt_block; auto 10
    | match type of H with
      | context [decide ?P] => destruct (decide P) as [[Hkey _] |]; [ | discriminate H ]
      end;
      injection H as <- <- <-; simpl; unfold salt_block; auto 10 ]
  | injection H as <- <- <-; simpl; unfold salt_block; auto 10 ].

Lemma init_inv (c : srtp_aes_icm_ctx_t) (key_in : list Z) (w : world)
    (st : srtp_err_status_t) (c' : srtp_aes_icm_ctx_t) (w' : world) :
  srtp_aes_icm_wolfssl_context_init c key_in w = Some (st, c', w') →
  st = srtp_err_status_alloc_fail ∨ st = srtp_err_status_init_fail ∨
  ((14 ≤ length (drop (Z.to_nat (key_size c)) key_in))%nat ∧
   offset c' = salt_block c key_in ∧ counter c' = salt_block c key_in ∧
   key_size c' = key_size c ∧
   ((st = srtp_err_status_bad_param ∧ key c' = key c) ∨
    (st = srtp_err_status_ok ∧
     (key_size c = 16 ∨ key_size c = 24 ∨ key_size c = 32) ∧
     (Z.to_nat (key_size c) ≤ length key_in)%nat ∧
     key c' = take (Z.to_nat (key_size c)) key_in
              ++ drop (Z.to_nat (key_size c)) (key c)))).
Proof.
  unfold srtp_aes_icm_wolfssl_context_init. cbv zeta. intros H.
  destruct (ctx c) as [a0 |] eqn:Hctx.
  - init_body H.
  - unfold mbind at 1, M_bind at 1, srtp_crypto_alloc in H.
    destruct (supply w) as [| [pm |] rest].
    + injection H as <- <- <-. auto.
    + destruct (wc_AesInit (as_Aes pm)) as [err a].
      destruct (err <? 0).
      * injection H as <- <- <-. auto.
      * init_body H.
    + injection H as <- <- <-. auto.
Qed.

(** C2. After every initialize call that returns ok, whatever the salt
    octets are, the offset and the counter both hold the fourteen octets
    found at position key_size of the input, followed by two zero octets:
    octets 0 to 13 are the salt, octets 14 and 15 are zero. *)
Theorem init_offset_counter (c : srtp_aes_icm_ctx_t) (key_in : list Z) (w : world)
    (c' : srtp_aes_icm_ctx_t) (w' : world) :
  srtp_aes_icm_wolfssl_context_init c key_in w = Some (srtp_err_status_ok, c', w') →
  let salt := take 14 (drop (Z.to_nat (key_size c)) key_in) in
  length salt = 14%nat ∧
  offset c' = salt ++ [0; 0] ∧
  counter c' = salt ++ [0; 0] ∧
  (∀ i, (i < 14)%nat →
        is_Some (key_in !! (Z.to_nat (key_size c) + i)%nat) ∧
        offset c' !! i = key_in !! (Z.to_nat (key_size c) + i)%nat ∧
        counter c' !! i = key_in !! (Z.to_nat (key_size c) + i)%nat) ∧
  offset c' !! 14%nat = Some 0 ∧ offset c' !! 15%nat = Some 0 ∧
  counter c' !! 14%nat = Some 0 ∧ counter c' !! 15%nat = Some 0.
Proof.
  intros H salt.
  apply init_inv in H as [H | [H | (Hsalt & Hoff & Hcnt & _)]]; try discriminate H.
  unfold salt_block in Hoff, Hcnt. fold salt in Hoff, Hcnt.
  assert (length salt = 14%nat) as Hlen by (unfold salt; rewrite length_take; lia).
  assert (∀ i, (i < 14)%nat →
               (salt ++ [0; 0]) !! i = key_in !! (Z.to_nat (key_size c) + i)%nat)
    as Hat.
  { intros i Hi. rewrite lookup_app_l by lia. unfold salt.
    rewrite lookup_take_lt by exact Hi. apply lookup_drop. }
  assert (∀ j, (j < 2)%nat → (salt ++ [0; 0]) !! (14 + j)%nat = [0; 0] !! j) as Hpad.
  { intros j Hj. rewrite lookup_app_r by lia. rewrite Hlen. f_equal. lia. }
  rewrite Hoff, Hcnt. repeat split; try reflexivity; try assumption.
  - apply lookup_lt_is_Some. rewrite length_drop in Hsalt. lia.
  - apply Hat; assumption.
  - apply Hat; assumption.
  - apply (Hpad 0%nat); lia.
  - apply (Hpad 1%nat); lia.
  - apply (Hpad 0%nat); lia.
  - apply (Hpad 1%nat); lia.
Qed.

(** C10, as the code has it. For an engine whose key_size is none of 16,
    24 and 32, whose block-cipher context exists already or is created by
    this call, and an input that reaches fourteen octets past key_size,
    initialize returns bad_param with the offset and the counter already
    overwritten by the salt block, and with the key octets as before the
    call. *)
Theorem init_bad_key_size (c : srtp_aes_icm_ctx_t) (key_in : list Z) (w : world) :
  key_size c ≠ 16 → key_size c ≠ 24 → key_size c ≠ 32 →
  (Z.to_nat (key_size c) + 14 ≤ length key_in)%nat →
  (ctx c ≠ None ∨
   ∃ pm rest, supply w = Some pm :: rest ∧ 0 ≤ (wc_AesInit (as_Aes pm)).1) →
  ∃ c' w',
    srtp_aes_icm_wolfssl_context_init c key_in w
    = Some (srtp_err_status_bad_param, c', w') ∧
    offset c' = take 14 (drop (Z.to_nat (key_size c)) key_in) ++ [0; 0] ∧
    counter c' = take 14 (drop (Z.to_nat (key_size c)) key_in) ++ [0; 0] ∧
    key c' = key c.
Proof.
  intros H16 H24 H32 Hin Hctx.
  assert ((key_size c =? SRTP_AES_256_KEY_LEN) || (key_size c =? SRTP_AES_192_KEY_LEN)
          || (key_size c =? SRTP_AES_128_KEY_LEN) = false) as Hsize.
  { apply not_true_is_false. rewrite key_size_cases. tauto. }
  assert ((14 ≤ length (drop (Z.to_nat (key_size c)) key_in))%nat) as Hsalt
    by (rewrite length_drop; lia).
  assert (∀ (c0 : srtp_aes_icm_ctx_t) (w0 : world) (r : _),
            srtp_aes_icm_wolfssl_context_init c0 key_in w0 = r →
            key_size c0 = key_size c → key c0 = key c → ctx c0 ≠ None →
            ∃ c' w',
              r = Some (srtp_err_status_bad_param, c', w') ∧
              offset c' = take 14 (drop (Z.to_nat (key_size c)) key_in) ++ [0; 0] ∧
              counter c' = take 14 (drop (Z.to_nat (key_size c)) key_in) ++ [0; 0] ∧
              key c' = key c) as Hbody.
  { intros c0 w0 r <- Hks Hk Hc0.
    unfold srtp_aes_icm_wolfssl_context_init. cbv zeta.
    destruct (ctx c0) as [a0 |] eqn:Ha0; [ | contradiction ].
    unfold memcpy, mbind, M_bind, mret, M_ret, defined. simpl.
    change (Z.to_nat SRTP_SALT_LEN) with 14%nat.
    change (Z.to_nat (SRTP_SALT_LEN + 1)) with 15%nat.
    rewrite Hks.
    rewrite decide_True by (split; [exact Hsalt | lia]). simpl.
    rewrite Hsize. rewrite !salt_copied by exact Hsalt.
    eexists _, _. split; [reflexivity | ]. simpl. auto. }
  destruct Hctx as [Hctx | (pm & rest & Hsup & Hinit)].
  - apply (Hbody c w _ eq_refl); auto.
  - destruct (ctx c) as [a0 |] eqn:Ha0.
    + apply (Hbody c w _ eq_refl); auto. rewrite Ha0. discriminate.
    + destruct (wc_AesInit (as_Aes pm)) as [err a] eqn:Hwc. simpl in Hinit.
      apply Z.ltb_ge in Hinit.
      apply (Hbody (set_ctx (Some a) c) (mk_world rest (released w)));
        [ | reflexivity | reflexivity | simpl; discriminate ].
      unfold srtp_aes_icm_wolfssl_context_init at 2. cbv zeta. rewrite Ha0.
      unfold mbind at 1, M_bind at 1, srtp_crypto_alloc.
      rewrite Hsup, Hwc, Hinit. reflexivity.
Qed.

(** ** Round trip *)

Lemma set_iv_inv (c : srtp_aes_icm_ctx_t) (iv : list Z) (dir : srtp_cipher_direction_t)
    (c' : srtp_aes_icm_ctx_t) :
  srtp_aes_icm_wolfssl_set_iv c iv dir = Some (srtp_err_status_ok, c') →
  ∃ nonce e,
    v128_copy_octet_string iv = Some nonce ∧
    wc_AesSetKey (ctx c) (key c) (word32 (key_size c)) (v128_xor (offset c) nonce) AES_ENCRYPTION
    = (e, ctx c') ∧ 0 ≤ e ∧
    counter c' = v128_xor (offset c) nonce ∧ offset c' = offset c ∧
    key c' = key c ∧ key_size c' = key_size c.
Proof.
  unfold srtp_aes_icm_wolfssl_set_iv. intros H.
  destruct (v128_copy_octet_string iv) as [nonce |]; [ | discriminate ].
  simpl in H.
  destruct (wc_AesSetKey (ctx c) (key c) (word32 (key_size c))
              (v128_xor (offset c) nonce) AES_ENCRYPTION) as [e a] eqn:Hkey.
  destruct (e <? 0) eqn:He; [discriminate | ].
  injection H as <-. apply Z.ltb_ge in He.
  exists nonce, e. simpl. auto 10.
Qed.

Lemma zip_with_lxor_cancel (a k : list Z) :
  (length a ≤ length k)%nat →
  zip_with Z.lxor (zip_with Z.lxor a k) k = a.
Proof.
  revert k. induction a as [| x a IH]; intros [| y k] Hlen; simpl in *;
    try reflexivity; try lia.
  rewrite Z.lxor_assoc, Z.lxor_nilpotent, Z.lxor_0_r.
  f_equal. apply IH. lia.
Qed.

(** What one packet's worth of initialize, set_iv and encrypt leaves in the
    destination buffer, for a primitive that keeps to the contract: the
    transform covers the first src_len modulo 2^32 octets and leaves the
    rest alone. *)
Lemma packet_transform (keystream : list Z → list Z → nat → list Z)
    `{!ctr_mode_laws keystream}
    (c e f g : srtp_aes_icm_ctx_t) (key_in iv src dst out : list Z) (src_len : Z)
    (dir : srtp_cipher_direction_t) (cap : Z) (dl : option Z) (w w' : world) :
  srtp_aes_icm_wolfssl_context_init c key_in w = Some (srtp_err_status_ok, e, w') →
  srtp_aes_icm_wolfssl_set_iv e iv dir = Some (srtp_err_status_ok, f) →
  srtp_aes_icm_wolfssl_encrypt f src src_len dst (Some cap)
  = (srtp_err_status_ok, g, out, dl) →
  (Z.to_nat (word32 src_len) ≤ length src)%nat →
  (Z.to_nat (word32 src_len) ≤ length dst)%nat →
  take (Z.to_nat (word32 src_len)) out =
  zip_with Z.lxor (take (Z.to_nat (word32 src_len)) src)
    (keystream (take (Z.to_nat (key_size c)) key_in)
               (zip_with Z.lxor (salt_block c key_in) (take 16 iv))
               (Z.to_nat (word32 src_len))) ∧
  drop (Z.to_nat (word32 src_len)) out = drop (Z.to_nat (word32 src_len)) dst ∧
  src_len ≤ cap ∧ dl = Some src_len.
Proof.
  intros Hinit Hiv Henc Hsrc Hroom.
  apply init_inv in Hinit
    as [H | [H | (_ & Hoff & _ & Hks & [[H _] | (_ & Hsize & Hin & Hkey)])]];
    try discriminate H.
  apply set_iv_inv in Hiv
    as (nonce & e1 & Hnonce & Hset & He1 & Hcnt & _ & Hkey' & Hks').
  apply encrypt_inv in Henc as (cap' & e2 & [= <-] & Hcap & Hdl & Hctr & He2).
  unfold v128_copy_octet_string in Hnonce. case_decide; [ | discriminate ].
  injection Hnonce as <-.
  pose proof (word32_range src_len) as Hw.
  assert (word32 (key_size e) = key_size c) as Hlen.
  { rewrite Hks. destruct Hsize as [-> | [-> | ->]]; reflexivity. }
  rewrite Hlen in Hset.
  split; [ | split; [ | split; assumption ] ].
  - rewrite (ctr_xor _ _ _ _ _ _ _ _ _ _ _ _ Hset He1 Hctr He2) by lia.
    unfold v128_xor. rewrite Hoff, Hkey.
    rewrite take_app_length' by (rewrite length_take; lia).
    reflexivity.
  - apply (ctr_frame _ _ _ _ _ _ _ Hctr He2); lia.
Qed.

Lemma descriptor_entries (p : srtp_cipher_type_ptr) :
  init (descriptor_at p) = srtp_aes_icm_wolfssl_context_init ∧
  set_iv (descriptor_at p) = srtp_aes_icm_wolfssl_set_iv ∧
  encrypt (descriptor_at p) = srtp_aes_icm_wolfssl_encrypt ∧
  decrypt (descriptor_at p) = srtp_aes_icm_wolfssl_encrypt.
Proof. destruct p; repeat split; reflexivity. Qed.

(** C6, where the code departs from it. In every descriptor the encrypt
    and decrypt entries are the same operation. But for a plaintext of
    2^32 octets or more the round trip does not give the plaintext back:
    when one engine is initialized, given the nonce and made to encrypt
    src_len octets, and a second engine of the same key size is
    initialized with the same key and salt, given the same nonce and made
    to process the ciphertext through the decrypt entry, all with
    success, only the first src_len modulo 2^32 octets of the second
    output are the plaintext; every octet past them is what the second
    destination buffer held before the call, although src_len is stored
    at dst_len. The external primitive is any one that keeps to the
    counter-mode contract. *)
Theorem roundtrip_narrowed (keystream : list Z → list Z → nat → list Z)
    `{!ctr_mode_laws keystream} (p : srtp_cipher_type_ptr)
    (c1 e1 f1 g1 c2 e2 f2 g2 : srtp_aes_icm_ctx_t)
    (key_in nonce pt dst1 dst2 ct out : list Z) (src_len : Z)
    (d1 d2 : srtp_cipher_direction_t) (cap1 cap2 : Z) (dl1 dl2 : option Z)
    (w1 w1' w2 w2' : world) :
  (∀ q, encrypt (descriptor_at q) = decrypt (descriptor_at q)) ∧
  (2 ^ 32 ≤ src_len →
   (Z.to_nat (word32 src_len) ≤ length pt)%nat →
   (Z.to_nat (word32 src_len) ≤ length dst1)%nat →
   (Z.to_nat (word32 src_len) ≤ length dst2)%nat →
   key_size c1 = key_size c2 →
   init (descriptor_at p) c1 key_in w1 = Some (srtp_err_status_ok, e1, w1') →
   set_iv (descriptor_at p) e1 nonce d1 = Some (srtp_err_status_ok, f1) →
   encrypt (descriptor_at p) f1 pt src_len dst1 (Some cap1)
   = (srtp_err_status_ok, g1, ct, dl1) →
   init (descriptor_at p) c2 key_in w2 = Some (srtp_err_status_ok, e2, w2') →
   set_iv (descriptor_at p) e2 nonce d2 = Some (srtp_err_status_ok, f2) →
   decrypt (descriptor_at p) f2 ct src_len dst2 (Some cap2)
   = (srtp_err_status_ok, g2, out, dl2) →
   dl2 = Some src_len ∧
   word32 src_len < src_len ∧
   take (Z.to_nat (word32 src_len)) out = take (Z.to_nat (word32 src_len)) pt ∧
   drop (Z.to_nat (word32 src_len)) out = drop (Z.to_nat (word32 src_len)) dst2).
Proof.
  split; [intros q; destruct q; reflexivity | ].
  intros Hbig Hpt Hroom1 Hroom2 Hks Hinit1 Hiv1 Henc1 Hinit2 Hiv2 Henc2.
  destruct (descriptor_entries p) as (Ei & Es & Ee & Ed).
  rewrite Ei in Hinit1, Hinit2. rewrite Es in Hiv1, Hiv2.
  rewrite Ee in Henc1. rewrite Ed in Henc2.
  pose proof (word32_range src_len) as Hw.
  destruct (packet_transform keystream _ _ _ _ _ _ _ _ _ _ _ _ _ _ _
              Hinit1 Hiv1 Henc1 Hpt Hroom1) as (Hct & _).
  assert ((Z.to_nat (word32 src_len) ≤ length ct)%nat) as Hsrc2.
  { assert (length (take (Z.to_nat (word32 src_len)) ct) = Z.to_nat (word32 src_len))
      as Hlen by (rewrite Hct, length_zip_with, keystream_length, length_take; lia).
    rewrite length_take in Hlen. lia. }
  destruct (packet_transform keystream _ _ _ _ _ _ _ _ _ _ _ _ _ _ _
              Hinit2 Hiv2 Henc2 Hsrc2 Hroom2) as (Hout & Hrest & _ & Hdl).
  split; [exact Hdl | ]. split; [lia | ]. split; [ | exact Hrest ].
  rewrite Hout, Hct. unfold salt_block. rewrite Hks.
  apply zip_with_lxor_cancel. rewrite keystream_length, length_take. lia.
Qed.

(** X19. Below 2^32 octets the round trip holds, through the descriptor's
    entries: for 0 <= src_len < 2^32, when one engine is initialized,
    given the nonce and made to encrypt src_len octets of plaintext, and a
    second engine of the same key size is initialized with the same key
    and salt, given the same nonce and made to process the resulting
    ciphertext through the decrypt entry, all with success, the second
    output is the plaintext again, octet for octet. The external
    primitive is any one that keeps to the counter-mode contract. *)
Theorem icm_roundtrip (keystream : list Z → list Z → nat → list Z)
    `{!ctr_mode_laws keystream} (p : srtp_cipher_type_ptr)
    (c1 e1 f1 g1 c2 e2 f2 g2 : srtp_aes_icm_ctx_t)
    (key_in nonce pt dst1 dst2 ct out : list Z) (src_len : Z)
    (d1 d2 : srtp_cipher_direction_t) (cap1 cap2 : Z) (dl1 dl2 : option Z)
    (w1 w1' w2 w2' : world) :
  0 ≤ src_len < 2 ^ 32 →
  (Z.to_nat src_len ≤ length pt)%nat →
  key_size c1 = key_size c2 →
  init (descriptor_at p) c1 key_in w1 = Some (srtp_err_status_ok, e1, w1') →
  set_iv (descriptor_at p) e1 nonce d1 = Some (srtp_err_status_ok, f1) →
  encrypt (descriptor_at p) f1 pt src_len dst1 (Some cap1)
  = (srtp_err_status_ok, g1, ct, dl1) →
  (Z.to_nat cap1 ≤ length dst1)%nat →
  init (descriptor_at p) c2 key_in w2 = Some (srtp_err_status_ok, e2, w2') →
  set_iv (descriptor_at p) e2 nonce d2 = Some (srtp_err_status_ok, f2) →
  decrypt (descriptor_at p) f2 ct src_len dst2 (Some cap2)
  = (srtp_err_status_ok, g2, out, dl2) →
  (Z.to_nat cap2 ≤ length dst2)%nat →
  take (Z.to_nat src_len) out = take (Z.to_nat src_len) pt.
Proof.
  intros Hnn Hpt Hks Hinit1 Hiv1 Henc1 Hroom1 Hinit2 Hiv2 Henc2 Hroom2.
  destruct (descriptor_entries p) as (Ei & Es & Ee & Ed).
  rewrite Ei in Hinit1, Hinit2. rewrite Es in Hiv1, Hiv2.
  rewrite Ee in Henc1. rewrite Ed in Henc2.
  pose proof (word32_small _ Hnn) as Hw.
  pose proof (encrypt_inv _ _ _ _ _ _ _ _ Henc1) as (? & ? & [= <-] & Hcap1 & _).
  pose proof (encrypt_inv _ _ _ _ _ _ _ _ Henc2) as (? & ? & [= <-] & Hcap2 & _).
  destruct (packet_transform keystream _ _ _ _ _ _ _ _ _ _ _ _ _ _ _
              Hinit1 Hiv1 Henc1) as (Hct & _); [lia | lia | ].
  rewrite Hw in Hct.
  assert ((Z.to_nat src_len ≤ length ct)%nat) as Hsrc2.
  { assert (length (take (Z.to_nat src_len) ct) = Z.to_nat src_len) as Hlen
      by (rewrite Hct, length_zip_with, keystream_length, length_take; lia).
    rewrite length_take in Hlen. lia. }
  destruct (packet_transform keystream _ _ _ _ _ _ _ _ _ _ _ _ _ _ _
              Hinit2 Hiv2 Henc2) as (Hout & _); [lia | lia | ].
  rewrite Hw in Hout. rewrite Hout, Hct.
  unfold salt_block. rewrite Hks.
  apply zip_with_lxor_cancel. rewrite keystream_length, length_take. lia.
Qed.

End Properties.

(** * The life cycle of an engine

    What the operations do on the paths the theorems above leave out, and
    how they compose. *)

Section Lifecycle.
Context `{W : wolfcrypt}.

(** ** initialize, path by path *)

(** With a context at hand, initialize is this function of the engine and
    the input. *)
Lemma init_with_ctx (c : srtp_aes_icm_ctx_t) (key_in : list Z) (w : world) (a : Aes) :
  ctx c = Some a →
  srtp_aes_icm_wolfssl_context_init c key_in w =
  if decide (14 ≤ length (drop (Z.to_nat (key_size c)) key_in))%nat then
    let c1 := mk_icm (salt_block c key_in) (salt_block c key_in)
                     (key c) (key_size c) (Some a) in
    if (key_size c =? 32) || (key_size c =? 24) || (key_size c =? 16) then
      if key_size c >? Z.of_nat (length (key c)) then
        Some (srtp_err_status_bad_param, c1, w)
      else if decide (Z.to_nat (key_size c) ≤ length key_in)%nat then
        Some (srtp_err_status_ok,
              set_key (take (Z.to_nat (key_size c)) key_in
                       ++ drop (Z.to_nat (key_size c)) (key c)) c1, w)
      else None
    else Some (srtp_err_status_bad_param, c1, w)
  else None.
Proof.
  destruct c as [cnt off k ks cx]. simpl. intros ->.
  unfold srtp_aes_icm_wolfssl_context_init, salt_block. cbv zeta.
  unfold memcpy, mbind, M_bind, mret, M_ret, defined. simpl.
  change (Z.to_nat SRTP_SALT_LEN) with 14%nat.
  change (Z.to_nat (SRTP_SALT_LEN + 1)) with 15%nat.
  change SRTP_AES_256_KEY_LEN with 32. change SRTP_AES_192_KEY_LEN with 24.
  change SRTP_AES_128_KEY_LEN with 16.
  destruct (decide (14 ≤ length (drop (Z.to_nat ks) key_in))%nat) as [Hsalt | Hsalt].
  - rewrite decide_True by (split; [exact Hsalt | lia]). simpl.
    rewrite !salt_copied by exact Hsalt.
    destruct ((ks =? 32) || (ks =? 24) || (ks =? 16)); [ | reflexivity ].
    destruct (ks >? Z.of_nat (length k)) eqn:Hroom; [ reflexivity | ].
    assert ((Z.to_nat ks ≤ length k)%nat) as Hfit by lia.
    destruct (decide (Z.to_nat ks ≤ length key_in)%nat) as [Hin | Hin].
    + rewrite decide_True by (split; assumption). reflexivity.
    + rewrite decide_False by (intros [? _]; contradiction). reflexivity.
  - rewrite decide_False by (intros [? _]; contradiction). reflexivity.
Qed.

(** Without a context, once storage is granted and the primitive has set
    it up, initialize goes on as it does with a context at hand. *)
Lemma init_creates (c : srtp_aes_icm_ctx_t) (key_in : list Z) (w : world)
    (pm : fresh_mem) (rest : list (option fresh_mem)) (err : Z) (a : Aes) :
  ctx c = None →
  supply w = Some pm :: rest →
  wc_AesInit (as_Aes pm) = (err, a) →
  0 ≤ err →
  srtp_aes_icm_wolfssl_context_init c key_in w
  = srtp_aes_icm_wolfssl_context_init (set_ctx (Some a) c) key_in
      (mk_world rest (released w)).
Proof.
  intros Hctx Hsup Hinit Herr. apply Z.ltb_ge in Herr.
  unfold srtp_aes_icm_wolfssl_context_init at 1. cbv zeta. rewrite Hctx.
  unfold mbind at 1, M_bind at 1, srtp_crypto_alloc.
  rewrite Hsup, Hinit, Herr. reflexivity.
Qed.

(** Every way initialize can return: before the salt is copied, with the
    engine as it was, or after, with both blocks overwritten. *)
Lemma init_outcome (c : srtp_aes_icm_ctx_t) (key_in : list Z) (w : world)
    (st : srtp_err_status_t) (c' : srtp_aes_icm_ctx_t) (w' : world) :
  srtp_aes_icm_wolfssl_context_init c key_in w = Some (st, c', w') →
  (c' = c ∧ ctx c = None ∧
   (st = srtp_err_status_alloc_fail ∨ st = srtp_err_status_init_fail)) ∨
  ((14 ≤ length (drop (Z.to_nat (key_size c)) key_in))%nat ∧
   offset c' = salt_block c key_in ∧ counter c' = salt_block c key_in ∧
   key_size c' = key_size c ∧ length (key c') = length (key c) ∧
   ctx c' ≠ None ∧
   (st = srtp_err_status_ok ∨ st = srtp_err_status_bad_param)).
Proof.
  assert (∀ c0 w0 a, ctx c0 = Some a →
            srtp_aes_icm_wolfssl_context_init c0 key_in w0 = Some (st, c', w') →
            (14 ≤ length (drop (Z.to_nat (key_size c0)) key_in))%nat ∧
            offset c' = salt_block c0 key_in ∧ counter c' = salt_block c0 key_in ∧
            key_size c' = key_size c0 ∧ length (key c') = length (key c0) ∧
            ctx c' ≠ None ∧
            (st = srtp_err_status_ok ∨ st = srtp_err_status_bad_param)) as Hbody.
  { intros c0 w0 a Ha H. rewrite (init_with_ctx _ _ _ _ Ha) in H. cbv zeta in H.
    repeat case_match; try discriminate H; injection H as <- <- <-; simpl;
      repeat split; auto; try discriminate.
    rewrite length_app, length_take, length_drop. lia. }
  intros H. destruct (ctx c) as [a |] eqn:Hctx.
  - right. exact (Hbody c w a Hctx H).
  - destruct (supply w) as [| [pm |] rest] eqn:Hsup.
    + left. unfold srtp_aes_icm_wolfssl_context_init in H. cbv zeta in H.
      rewrite Hctx in H. unfold mbind, M_bind, srtp_crypto_alloc in H.
      rewrite Hsup in H. injection H as <- <- <-.
      destruct c; simpl in *; subst; auto.
    + destruct (wc_AesInit (as_Aes pm)) as [err a] eqn:Hinit.
      destruct (err <? 0) eqn:Herr.
      * left. unfold srtp_aes_icm_wolfssl_context_init in H. cbv zeta in H.
        rewrite Hctx in H. unfold mbind, M_bind, srtp_crypto_alloc in H.
        rewrite Hsup, Hinit, Herr in H. injection H as <- <- <-.
        destruct c; simpl in *; subst; auto.
      * right. apply Z.ltb_ge in Herr.
        rewrite (init_creates _ _ _ _ _ _ _ Hctx Hsup Hinit Herr) in H.
        exact (Hbody (set_ctx (Some a) c) _ a eq_refl H).
    + left. unfold srtp_aes_icm_wolfssl_context_init in H. cbv zeta in H.
      rewrite Hctx in H. unfold mbind, M_bind, srtp_crypto_alloc in H.
      rewrite Hsup in H. injection H as <- <- <-.
      destruct c; simpl in *; subst; auto.
Qed.

(** Every way set_iv can return. *)
Lemma set_iv_outcome (c : srtp_aes_icm_ctx_t) (iv : list Z)
    (dir : srtp_cipher_direction_t) (st : srtp_err_status_t)
    (c' : srtp_aes_icm_ctx_t) :
  srtp_aes_icm_wolfssl_set_iv c iv dir = Some (st, c') →
  (16 ≤ length iv)%nat ∧
  counter c' = zip_with Z.lxor (offset c) (take 16 iv) ∧
  offset c' = offset c ∧ key c' = key c ∧ key_size c' = key_size c ∧
  ∃ e, wc_AesSetKey (ctx c) (key c) (word32 (key_size c))
         (zip_with Z.lxor (offset c) (take 16 iv)) AES_ENCRYPTION = (e, ctx c') ∧
       ((st = srtp_err_status_ok ∧ 0 ≤ e) ∨ (st = srtp_err_status_fail ∧ e < 0)).
Proof.
  unfold srtp_aes_icm_wolfssl_set_iv, v128_copy_octet_string, v128_xor. intros H.
  case_decide as Hlen; [ | discriminate H ]. simpl in H.
  destruct (wc_AesSetKey (ctx c) (key c) (word32 (key_size c))
              (zip_with Z.lxor (offset c) (take 16 iv)) AES_ENCRYPTION)
    as [e a] eqn:Hset.
  destruct (e <? 0) eqn:He; injection H as <- <-; simpl;
    (repeat split; [exact Hlen | ]); exists e; (split; [reflexivity | ]).
  - right. apply Z.ltb_lt in He. auto.
  - left. apply Z.ltb_ge in He. auto.
Qed.

(** Every way encrypt can return. *)
Lemma encrypt_outcome (c : srtp_aes_icm_ctx_t) (src : list Z) (src_len : Z)
    (dst : list Z) (dl : option Z) (st : srtp_err_status_t)
    (c' : srtp_aes_icm_ctx_t) (dst' : list Z) (dl' : option Z) :
  srtp_aes_icm_wolfssl_encrypt c src src_len dst dl = (st, c', dst', dl') →
  counter c' = counter c ∧ offset c' = offset c ∧ key c' = key c ∧
  key_size c' = key_size c ∧
  ((st = srtp_err_status_bad_param ∧ dl = None ∧ c' = c ∧ dst' = dst ∧ dl' = dl) ∨
   (∃ cap, dl = Some cap ∧
      ((st = srtp_err_status_buffer_small ∧ cap < src_len ∧
        c' = c ∧ dst' = dst ∧ dl' = dl) ∨
       (src_len ≤ cap ∧
        ∃ e, wc_AesCtrEncrypt (ctx c) dst src (word32 src_len) = (e, ctx c', dst') ∧
             ((st = srtp_err_status_cipher_fail ∧ e < 0 ∧ dl' = dl) ∨
              (st = srtp_err_status_ok ∧ 0 ≤ e ∧ dl' = Some src_len)))))).
Proof.
  unfold srtp_aes_icm_wolfssl_encrypt. intros H.
  destruct dl as [cap |].
  - destruct (cap <? src_len) eqn:Hcap.
    + injection H as <- <- <- <-. apply Z.ltb_lt in Hcap.
      repeat split; try reflexivity. right. exists cap. split; [reflexivity | ].
      left. auto.
    + destruct (wc_AesCtrEncrypt (ctx c) dst src (word32 src_len)) as [[e a] d] eqn:Henc.
      apply Z.ltb_ge in Hcap.
      destruct (e <? 0) eqn:He; injection H as <- <- <- <-; simpl;
        (repeat split; try reflexivity); right; exists cap;
        (split; [reflexivity | ]); right; (split; [exact Hcap | ]);
        exists e; (split; [reflexivity | ]).
      * left. apply Z.ltb_lt in He. auto.
      * right. apply Z.ltb_ge in He. auto.
  - injection H as <- <- <- <-. repeat split; try reflexivity. left. auto.
Qed.

(** ** Storage that is refused, and a primitive that declines *)

(** X1. For a valid length, when the request for the cipher's storage is
    refused, allocate returns alloc_fail with a NULL slot and nothing
    released; when that request is granted and the one for the state is
    refused, it returns alloc_fail with a NULL slot after releasing the
    cipher's storage again. *)
Theorem alloc_storage_refused (c : option srtp_cipher_t) (len tlen : Z) (w : world) :
  len = 30 ∨ len = 38 ∨ len = 46 →
  (∀ w1, srtp_crypto_alloc w = Some (None, w1) →
         srtp_aes_icm_wolfssl_alloc c len tlen w
         = Some (srtp_err_status_alloc_fail, None, w1) ∧
         released w1 = released w) ∧
  (∀ pm w1 w2,
     srtp_crypto_alloc w = Some (Some pm, w1) →
     srtp_crypto_alloc w1 = Some (None, w2) →
     srtp_aes_icm_wolfssl_alloc c len tlen w
     = Some (srtp_err_status_alloc_fail, None,
             mk_world (supply w2) (released w ++ [obj_cipher (as_cipher pm)]))).
Proof.
  intros Hlen.
  assert (negb (len =? SRTP_AES_ICM_128_KEY_LEN_WSALT) &&
          negb (len =? SRTP_AES_ICM_192_KEY_LEN_WSALT) &&
          negb (len =? SRTP_AES_ICM_256_KEY_LEN_WSALT) = false) as Hguard
    by (destruct Hlen as [-> | [-> | ->]]; reflexivity).
  unfold srtp_aes_icm_wolfssl_alloc. rewrite Hguard.
  unfold mbind, M_bind, mret, M_ret, srtp_crypto_free.
  split.
  - intros w1 H1. rewrite H1. split; [reflexivity | ].
    unfold srtp_crypto_alloc in H1.
    destruct (supply w) as [| [m |] rest]; try discriminate H1;
      injection H1 as <-; reflexivity.
  - intros pm w1 w2 H1 H2. rewrite H1, H2. simpl.
    unfold srtp_crypto_alloc in H1, H2.
    destruct (supply w) as [| [m |] rest]; [discriminate H1 | | discriminate H1].
    injection H1 as <- <-. simpl in H2.
    destruct rest as [| [m' |] rest']; [ | discriminate H2 | ];
      injection H2 as <-; reflexivity.
Qed.

(** X2. Without a context, when the request for its storage is refused,
    initialize returns alloc_fail whatever the input is, even an empty
    one; the engine is as before the call and nothing is released. *)
Theorem init_storage_refused (c : srtp_aes_icm_ctx_t) (key_in : list Z) (w w1 : world) :
  ctx c = None →
  srtp_crypto_alloc w = Some (None, w1) →
  srtp_aes_icm_wolfssl_context_init c key_in w
  = Some (srtp_err_status_alloc_fail, c, w1) ∧
  released w1 = released w.
Proof.
  intros Hctx H1.
  unfold srtp_aes_icm_wolfssl_context_init. cbv zeta. rewrite Hctx.
  unfold mbind at 1, M_bind at 1. rewrite H1.
  unfold srtp_crypto_alloc in H1.
  destruct c as [cnt off k ks cx]; simpl in Hctx; subst cx.
  split; [reflexivity | ].
  destruct (supply w) as [| [m |] rest]; try discriminate H1;
    injection H1 as <-; reflexivity.
Qed.

(** X3. Without a context, when storage is granted and the external
    primitive declines to set it up, initialize returns init_fail
    whatever the input is; the storage is released again and the engine
    is as before the call, its context still NULL. *)
Theorem init_primitive_declines (c : srtp_aes_icm_ctx_t) (key_in : list Z)
    (w w1 : world) (pm : fresh_mem) :
  ctx c = None →
  srtp_crypto_alloc w = Some (Some pm, w1) →
  (wc_AesInit (as_Aes pm)).1 < 0 →
  srtp_aes_icm_wolfssl_context_init c key_in w
  = Some (srtp_err_status_init_fail, c,
          mk_world (supply w1)
                   (released w ++ [obj_Aes (wc_AesInit (as_Aes pm)).2])).
Proof.
  intros Hctx H1 Herr.
  unfold srtp_aes_icm_wolfssl_context_init. cbv zeta. rewrite Hctx.
  unfold mbind at 1, M_bind at 1. rewrite H1.
  destruct (wc_AesInit (as_Aes pm)) as [err a]. simpl in Herr |- *.
  apply Z.ltb_lt in Herr. rewrite Herr.
  unfold srtp_crypto_alloc in H1.
  destruct (supply w) as [| [m |] rest]; [discriminate H1 | | discriminate H1].
  injection H1 as <- <-.
  destruct c as [cnt off k ks cx]; simpl in Hctx; subst cx. reflexivity.
Qed.

(** X4. On an engine that has a context, initialize requests no storage
    and releases none, keeps that context, and returns ok or bad_param
    only: a second initialize reuses the context of the first. *)
Theorem init_reuses_context (c : srtp_aes_icm_ctx_t) (key_in : list Z) (w : world)
    (a : Aes) (st : srtp_err_status_t) (c' : srtp_aes_icm_ctx_t) (w' : world) :
  ctx c = Some a →
  srtp_aes_icm_wolfssl_context_init c key_in w = Some (st, c', w') →
  w' = w ∧ ctx c' = Some a ∧
  (st = srtp_err_status_ok ∨ st = srtp_err_status_bad_param).
Proof.
  intros Hctx H. rewrite (init_with_ctx _ _ _ _ Hctx) in H. cbv zeta in H.
  repeat case_match; try discriminate H; injection H as <- <- <-; simpl; auto.
Qed.

(** ** The way to a keyed engine *)

(** What initialize returns when nothing stands in its way. *)
Lemma init_ok (c : srtp_aes_icm_ctx_t) (key_in : list Z) (w : world) (a : Aes) :
  ctx c = Some a →
  key_size c = 16 ∨ key_size c = 24 ∨ key_size c = 32 →
  key_size c ≤ Z.of_nat (length (key c)) →
  (Z.to_nat (key_size c) + 14 ≤ length key_in)%nat →
  srtp_aes_icm_wolfssl_context_init c key_in w
  = Some (srtp_err_status_ok,
          mk_icm (salt_block c key_in) (salt_block c key_in)
                 (take (Z.to_nat (key_size c)) key_in
                  ++ drop (Z.to_nat (key_size c)) (key c))
                 (key_size c) (Some a),
          w).
Proof.
  intros Ha Hsize Hfit Hin. rewrite (init_with_ctx _ _ _ _ Ha). cbv zeta.
  rewrite decide_True by (rewrite length_drop; lia).
  replace ((key_size c =? 32) || (key_size c =? 24) || (key_size c =? 16))
    with true by (destruct Hsize as [-> | [-> | ->]]; reflexivity).
  replace (key_size c >? Z.of_nat (length (key c))) with false
    by (rewrite Z.gtb_ltb; symmetry; apply Z.ltb_ge; lia).
  rewrite decide_True by lia. reflexivity.
Qed.

(** What allocate returns when both requests are granted. *)
Lemma alloc_ok (c : option srtp_cipher_t) (len tlen : Z) (w : world)
    (pm qm : fresh_mem) (rest : list (option fresh_mem)) :
  len = 30 ∨ len = 38 ∨ len = 46 →
  supply w = Some pm :: Some qm :: rest →
  ∃ t id,
    srtp_aes_icm_wolfssl_alloc c len tlen w
    = Some (srtp_err_status_ok,
            Some (mk_cipher t
                    (Some (mk_icm (counter (as_icm qm)) (offset (as_icm qm))
                                  (key (as_icm qm)) (len - 14) None))
                    len id),
            mk_world rest (released w)).
Proof.
  intros Hlen Hsup. destruct w as [sup rel]. simpl in Hsup. subst sup.
  destruct Hlen as [-> | [-> | ->]]; eexists _, _; cbv; reflexivity.
Qed.

(** X5. For an engine with a key_size of 16, 24 or 32 that fits its key
    array, an input of at least key_size + 14 octets, and a context that
    exists or is created by the call, initialize returns ok: the first
    key_size octets of the key array are those of the input, the rest of
    the array and key_size are as before, the context is not NULL and
    nothing is released. *)
Theorem init_succeeds (c : srtp_aes_icm_ctx_t) (key_in : list Z) (w : world) :
  key_size c = 16 ∨ key_size c = 24 ∨ key_size c = 32 →
  key_size c ≤ Z.of_nat (length (key c)) →
  (Z.to_nat (key_size c) + 14 ≤ length key_in)%nat →
  (ctx c ≠ None ∨
   ∃ pm rest, supply w = Some pm :: rest ∧ 0 ≤ (wc_AesInit (as_Aes pm)).1) →
  ∃ c' w',
    srtp_aes_icm_wolfssl_context_init c key_in w = Some (srtp_err_status_ok, c', w') ∧
    take (Z.to_nat (key_size c)) (key c') = take (Z.to_nat (key_size c)) key_in ∧
    drop (Z.to_nat (key_size c)) (key c') = drop (Z.to_nat (key_size c)) (key c) ∧
    key_size c' = key_size c ∧ ctx c' ≠ None ∧
    released w' = released w.
Proof.
  intros Hsize Hfit Hin Hctx.
  assert (length (take (Z.to_nat (key_size c)) key_in) = Z.to_nat (key_size c))
    as Hlen by (rewrite length_take; lia).
  destruct (ctx c) as [a |] eqn:Ha.
  - eexists _, _. split; [exact (init_ok c key_in w a Ha Hsize Hfit Hin) | ]. simpl.
    rewrite take_app_length', drop_app_length' by (symmetry; exact Hlen).
    repeat split; auto; discriminate.
  - destruct Hctx as [Hctx | (pm & rest & Hsup & Hinit)]; [contradiction | ].
    destruct (wc_AesInit (as_Aes pm)) as [err a] eqn:Hwc. simpl in Hinit.
    rewrite (init_creates _ _ _ _ _ _ _ Ha Hsup Hwc Hinit).
    eexists _, _.
    split; [exact (init_ok (set_ctx (Some a) c) key_in _ a eq_refl Hsize Hfit Hin) | ].
    simpl. rewrite take_app_length', drop_app_length' by (symmetry; exact Hlen).
    repeat split; auto; discriminate.
Qed.

(** X6. A combined length that allocate accepts is the amount of key
    material initialize uses. For a valid length, storage granted three
    times, wc_AesInit accepting the new context, a key array of at least
    32 octets and an input of exactly that length, allocate and then
    initialize both return ok; key_size + 14 is
    the combined length, and the key octets of the engine followed by the
    first fourteen octets of its offset are the input, octet for octet. *)
Theorem alloc_then_init (c : option srtp_cipher_t) (len tlen : Z) (key_in : list Z)
    (w : world) (pm qm rm : fresh_mem) (rest : list (option fresh_mem)) :
  len = 30 ∨ len = 38 ∨ len = 46 →
  supply w = Some pm :: Some qm :: Some rm :: rest →
  (32 ≤ length (key (as_icm qm)))%nat →
  0 ≤ (wc_AesInit (as_Aes rm)).1 →
  length key_in = Z.to_nat len →
  ∃ cv st w1 e w2,
    srtp_aes_icm_wolfssl_alloc c len tlen w = Some (srtp_err_status_ok, Some cv, w1) ∧
    state cv = Some st ∧
    srtp_aes_icm_wolfssl_context_init st key_in w1 = Some (srtp_err_status_ok, e, w2) ∧
    key_size e + SRTP_SALT_LEN = len ∧
    take (Z.to_nat (key_size e)) (key e) ++ take 14 (offset e) = key_in ∧
    supply w2 = rest.
Proof.
  intros Hlen Hsup Hkey Hinit Hin.
  destruct (alloc_ok c len tlen w pm qm _ Hlen Hsup) as (t & id & Halloc).
  destruct (wc_AesInit (as_Aes rm)) as [err a] eqn:Hwc. simpl in Hinit.
  set (st := mk_icm (counter (as_icm qm)) (offset (as_icm qm)) (key (as_icm qm))
                    (len - 14) None) in Halloc.
  assert (key_size st = 16 ∨ key_size st = 24 ∨ key_size st = 32) as Hsize
    by (simpl; lia).
  eexists _, st, _, _, _. split; [exact Halloc | ]. split; [reflexivity | ].
  split.
  - rewrite (init_creates st key_in (mk_world (Some rm :: rest) (released w))
               rm rest err a eq_refl eq_refl Hwc Hinit).
    apply (init_ok (set_ctx (Some a) st) key_in _ a eq_refl Hsize); simpl; lia.
  - simpl. unfold salt_block, SRTP_SALT_LEN. simpl.
    assert (length (take (Z.to_nat (len - 14)) key_in) = Z.to_nat (len - 14))
      as Hk by (rewrite length_take; lia).
    assert (length (take 14 (drop (Z.to_nat (len - 14)) key_in)) = 14%nat)
      as Hs by (rewrite length_take, length_drop; lia).
    rewrite take_app_length' by (symmetry; exact Hk).
    rewrite take_app_length' by (symmetry; exact Hs).
    rewrite (take_ge (drop _ _)) by (rewrite length_drop; lia).
    rewrite take_drop. split; [lia | split; reflexivity].
Qed.

(** ** What no sequence of calls changes *)

Lemma packet_step_keeps (c c' : srtp_aes_icm_ctx_t) :
  packet_step c c' →
  offset c' = offset c ∧ key c' = key c ∧ key_size c' = key_size c.
Proof.
  intros [c0 iv dir st c1 H | c0 src n dst dl st c1 dst' dl' H].
  - apply set_iv_outcome in H as (_ & _ & Ho & Hk & Hs & _). auto.
  - apply encrypt_outcome in H as (_ & Ho & Hk & Hs & _). auto.
Qed.

(** X7. The key_size of an engine is fixed once and for all: no sequence
    of initialize, set_iv and encrypt calls, whatever their arguments and
    whatever they return, changes it. *)
Theorem key_size_immutable (s s' : srtp_aes_icm_ctx_t * world) :
  rtc api_step s s' →
  key_size s'.1 = key_size s.1.
Proof.
  induction 1 as [s | s t u Hstep _ IH]; [reflexivity | ].
  rewrite IH. destruct Hstep as [c key_in w st c' w' H | c c' w H]; simpl.
  - apply init_outcome in H as [(-> & _) | (_ & _ & _ & Hs & _)]; auto.
  - apply packet_step_keeps in H as (_ & _ & Hs). exact Hs.
Qed.

Lemma salt_block_low_octets (c : srtp_aes_icm_ctx_t) (key_in : list Z) :
  (14 ≤ length (drop (Z.to_nat (key_size c)) key_in))%nat →
  low_octets_zero (salt_block c key_in) = true.
Proof.
  intros Hsalt. unfold low_octets_zero, salt_block.
  assert (length (take 14 (drop (Z.to_nat (key_size c)) key_in)) = 14%nat) as Hlen
    by (rewrite length_take; lia).
  rewrite length_app, Hlen.
  rewrite drop_app_length' by (symmetry; exact Hlen). reflexivity.
Qed.

(** X8. Once the offset is a sixteen-octet block whose last two octets
    are zero, it stays one under every sequence of initialize, set_iv and
    encrypt calls, failed ones included. *)
Theorem offset_low_octets_stay_zero (s s' : srtp_aes_icm_ctx_t * world) :
  rtc api_step s s' →
  low_octets_zero (offset s.1) = true →
  low_octets_zero (offset s'.1) = true.
Proof.
  induction 1 as [s | s t u Hstep _ IH]; [auto | ].
  intros Hz. apply IH. clear IH.
  destruct Hstep as [c key_in w st c' w' H | c c' w H]; simpl in *.
  - apply init_outcome in H as [(-> & _) | (Hsalt & -> & _)]; [exact Hz | ].
    apply salt_block_low_octets. exact Hsalt.
  - apply packet_step_keeps in H as (-> & _). exact Hz.
Qed.

(** X9. The counter is derived anew for every packet and never carried
    over: after any sequence of set_iv and encrypt calls on an engine,
    set_iv leaves in the counter the exclusive-or of the nonce with the
    offset the engine had at the start of the sequence. *)
Theorem counter_rederived (c c' c'' : srtp_aes_icm_ctx_t) (iv : list Z)
    (dir : srtp_cipher_direction_t) (st : srtp_err_status_t) :
  rtc packet_step c c' →
  srtp_aes_icm_wolfssl_set_iv c' iv dir = Some (st, c'') →
  counter c'' = zip_with Z.lxor (offset c) (take 16 iv) ∧
  offset c'' = offset c ∧ key c'' = key c.
Proof.
  intros Hseq Hiv.
  assert (offset c' = offset c ∧ key c' = key c) as [Ho Hk].
  { clear Hiv. induction Hseq as [c | c d e Hstep _ IH]; [auto | ].
    apply packet_step_keeps in Hstep as (Ho & Hk & _).
    destruct IH as [-> ->]. auto. }
  apply set_iv_outcome in Hiv as (_ & Hc & Ho' & Hk' & _).
  rewrite Hc, Ho', Hk', Ho, Hk. auto.
Qed.

(** ** The starting counter block *)

Lemma lxor_cancel_l (x y z : Z) : Z.lxor x y = Z.lxor x z → y = z.
Proof.
  intros H.
  rewrite <- (Z.lxor_0_l y), <- (Z.lxor_0_l z), <- (Z.lxor_nilpotent x).
  rewrite !Z.lxor_assoc, H. reflexivity.
Qed.

Lemma zip_with_lxor_inj (o a b : list Z) :
  length a = length b →
  (length a ≤ length o)%nat →
  zip_with Z.lxor o a = zip_with Z.lxor o b →
  a = b.
Proof.
  revert a b. induction o as [| x o IH]; intros [| y a] [| z b] Hab Hao Heq;
    simpl in *; try reflexivity; try lia.
  injection Heq as Hhead Htail. f_equal.
  - exact (lxor_cancel_l _ _ _ Hhead).
  - apply IH; [lia | lia | exact Htail].
Qed.

Lemma zip_with_lxor_zeros (n : nat) (l : list Z) :
  length l = n →
  zip_with Z.lxor (replicate n 0) l = l.
Proof.
  revert l. induction n as [| n IH]; intros [| x l] Hlen; simpl in *;
    try reflexivity; try lia.
  rewrite IH by lia. reflexivity.
Qed.

(** X10. Two different 16-octet nonces never give the same starting
    counter block on one engine (with a 16-octet offset): equal counters
    after set_iv mean equal nonces. *)
Theorem set_iv_injective (c c1 c2 : srtp_aes_icm_ctx_t) (iv1 iv2 : list Z)
    (d1 d2 : srtp_cipher_direction_t) (s1 s2 : srtp_err_status_t) :
  length (offset c) = 16%nat →
  length iv1 = 16%nat →
  length iv2 = 16%nat →
  srtp_aes_icm_wolfssl_set_iv c iv1 d1 = Some (s1, c1) →
  srtp_aes_icm_wolfssl_set_iv c iv2 d2 = Some (s2, c2) →
  counter c1 = counter c2 →
  iv1 = iv2.
Proof.
  intros Ho H1 H2 Hiv1 Hiv2 Heq.
  apply set_iv_outcome in Hiv1 as (_ & Hc1 & _).
  apply set_iv_outcome in Hiv2 as (_ & Hc2 & _).
  rewrite Hc1, Hc2 in Heq. rewrite !take_ge in Heq by lia.
  apply (zip_with_lxor_inj (offset c)); [lia | lia | exact Heq].
Qed.

(** X11. On an engine that initialize has keyed, set_iv with a 16-octet
    nonce leaves the last two octets of the nonce in the last two octets
    of the counter (the block counter starts where the nonce says, at
    zero for a nonce that ends in two zero octets) and the salt combined
    with the nonce in the first fourteen. *)
Theorem set_iv_block_counter (c e f : srtp_aes_icm_ctx_t) (key_in iv : list Z)
    (w w' : world) (dir : srtp_cipher_direction_t) (st : srtp_err_status_t) :
  srtp_aes_icm_wolfssl_context_init c key_in w = Some (srtp_err_status_ok, e, w') →
  srtp_aes_icm_wolfssl_set_iv e iv dir = Some (st, f) →
  length iv = 16%nat →
  drop 14 (counter f) = drop 14 iv ∧
  take 14 (counter f)
  = zip_with Z.lxor (take 14 (drop (Z.to_nat (key_size c)) key_in)) (take 14 iv).
Proof.
  intros Hinit Hiv Hlen.
  apply init_outcome in Hinit
    as [(_ & _ & [H | H]) | (Hsalt & Hoff & _)]; try discriminate H.
  apply set_iv_outcome in Hiv as (_ & Hc & _).
  rewrite Hc, Hoff. unfold salt_block. rewrite (take_ge iv 16) by lia.
  set (salt := take 14 (drop (Z.to_nat (key_size c)) key_in)).
  assert (length salt = 14%nat) as Hs by (unfold salt; rewrite length_take; lia).
  rewrite <- (take_drop 14 iv) at 1 3.
  rewrite zip_with_app by (rewrite length_take; lia).
  assert (length (zip_with Z.lxor salt (take 14 iv)) = 14%nat) as Hz
    by (rewrite length_zip_with, length_take; lia).
  rewrite drop_app_length', take_app_length' by (symmetry; exact Hz).
  split; [ | reflexivity ].
  apply (zip_with_lxor_zeros 2). rewrite length_drop. lia.
Qed.

(** ** Status codes *)

(** X12. The statuses each operation can return: allocate only ok,
    bad_param and alloc_fail; deallocate only ok and bad_param;
    initialize only ok, bad_param, alloc_fail and init_fail; set_iv only
    ok and the general failure; encrypt only ok, bad_param, buffer_small
    and cipher_fail. *)
Theorem status_ranges :
  (∀ c len tlen w,
     match srtp_aes_icm_wolfssl_alloc c len tlen w with
     | Some (st, _, _) =>
       st = srtp_err_status_ok ∨ st = srtp_err_status_bad_param ∨
       st = srtp_err_status_alloc_fail
     | None => False
     end) ∧
  (∀ c w,
     match srtp_aes_icm_wolfssl_dealloc c w with
     | Some (st, _) => st = srtp_err_status_ok ∨ st = srtp_err_status_bad_param
     | None => False
     end) ∧
  (∀ c key_in w,
     match srtp_aes_icm_wolfssl_context_init c key_in w with
     | Some (st, _, _) =>
       st = srtp_err_status_ok ∨ st = srtp_err_status_bad_param ∨
       st = srtp_err_status_alloc_fail ∨ st = srtp_err_status_init_fail
     | None => True
     end) ∧
  (∀ c iv dir,
     match srtp_aes_icm_wolfssl_set_iv c iv dir with
     | Some (st, _) => st = srtp_err_status_ok ∨ st = srtp_err_status_fail
     | None => True
     end) ∧
  (∀ c src src_len dst dst_len,
     let st := (srtp_aes_icm_wolfssl_encrypt c src src_len dst dst_len).1.1.1 in
     st = srtp_err_status_ok ∨ st = srtp_err_status_bad_param ∨
     st = srtp_err_status_buffer_small ∨ st = srtp_err_status_cipher_fail).
Proof.
  repeat split.
  - intros c len tlen [sup rel]. unfold srtp_aes_icm_wolfssl_alloc.
    unfold mbind, M_bind, mret, M_ret, srtp_crypto_alloc, srtp_crypto_free.
    destruct (len =? SRTP_AES_ICM_128_KEY_LEN_WSALT),
             (len =? SRTP_AES_ICM_192_KEY_LEN_WSALT),
             (len =? SRTP_AES_ICM_256_KEY_LEN_WSALT);
      destruct sup as [| [pm |] [| [qm |] rest]]; simpl; auto.
  - intros [cv |] w; unfold srtp_aes_icm_wolfssl_dealloc; [ | simpl; auto ].
    destruct (state cv) as [st |]; [destruct (ctx st) | ]; simpl; auto.
  - intros c key_in w.
    destruct (srtp_aes_icm_wolfssl_context_init c key_in w) as [[[st c'] w'] |] eqn:H;
      [ | exact I ].
    apply init_outcome in H as [(_ & _ & [-> | ->]) | (_ & _ & _ & _ & _ & _ & [-> | ->])];
      auto.
  - intros c iv dir.
    destruct (srtp_aes_icm_wolfssl_set_iv c iv dir) as [[st c'] |] eqn:H; [ | exact I ].
    apply set_iv_outcome in H as (_ & _ & _ & _ & _ & e & _ & [[-> _] | [-> _]]); auto.
  - intros c src src_len dst dst_len.
    destruct (srtp_aes_icm_wolfssl_encrypt c src src_len dst dst_len)
      as [[[st c'] dst'] dl'] eqn:H. simpl.
    apply encrypt_outcome in H
      as (_ & _ & _ & _ & [(-> & _) | (cap & _ & [(-> & _) | (_ & e & _ & [(-> & _) | (-> & _)])])]);
      auto.
Qed.

(** X13. With a capacity that suffices, when the external transform
    reports an error, encrypt returns cipher_fail and leaves the value at
    dst_len as it was; the destination buffer is whatever the primitive
    left there, and counter, offset, key and key_size are untouched. *)
Theorem encrypt_primitive_fails (c : srtp_aes_icm_ctx_t) (src : list Z) (src_len : Z)
    (dst : list Z) (cap : Z) :
  src_len ≤ cap →
  (wc_AesCtrEncrypt (ctx c) dst src (word32 src_len)).1.1 < 0 →
  ∃ c',
    srtp_aes_icm_wolfssl_encrypt c src src_len dst (Some cap)
    = (srtp_err_status_cipher_fail, c',
       (wc_AesCtrEncrypt (ctx c) dst src (word32 src_len)).2, Some cap) ∧
    counter c' = counter c ∧ offset c' = offset c ∧
    key c' = key c ∧ key_size c' = key_size c.
Proof.
  intros Hcap Herr. unfold srtp_aes_icm_wolfssl_encrypt.
  replace (cap <? src_len) with false by (symmetry; apply Z.ltb_ge; exact Hcap).
  destruct (wc_AesCtrEncrypt (ctx c) dst src (word32 src_len)) as [[e a] d]. simpl in Herr |- *.
  apply Z.ltb_lt in Herr. rewrite Herr.
  eexists. split; [reflexivity | ]. simpl. auto.
Qed.

(** ** Keystream *)

Lemma zip_with_lxor_pad (a b k : list Z) :
  (length a ≤ length k)%nat →
  (length b ≤ length k)%nat →
  zip_with Z.lxor (zip_with Z.lxor a k) (zip_with Z.lxor b k) = zip_with Z.lxor a b.
Proof.
  revert b k. induction a as [| x a IH]; intros [| y b] [| z k] Ha Hb; simpl in *;
    try reflexivity; try lia.
  f_equal; [ | apply IH; lia ].
  rewrite (Z.lxor_comm y z), Z.lxor_assoc, <- (Z.lxor_assoc z z y).
  rewrite Z.lxor_nilpotent, Z.lxor_0_l. reflexivity.
Qed.

(** What set_iv followed by encrypt leaves in the destination buffer, for
    a primitive that keeps to the contract. *)
Lemma programmed_transform (keystream : list Z → list Z → nat → list Z)
    `{!ctr_mode_laws keystream}
    (c f g : srtp_aes_icm_ctx_t) (iv src dst out : list Z) (src_len : Z)
    (dir : srtp_cipher_direction_t) (cap : Z) (dl : option Z) :
  srtp_aes_icm_wolfssl_set_iv c iv dir = Some (srtp_err_status_ok, f) →
  srtp_aes_icm_wolfssl_encrypt f src src_len dst (Some cap)
  = (srtp_err_status_ok, g, out, dl) →
  0 ≤ src_len < 2 ^ 32 →
  (Z.to_nat src_len ≤ length src)%nat →
  (Z.to_nat cap ≤ length dst)%nat →
  take (Z.to_nat src_len) out =
  zip_with Z.lxor (take (Z.to_nat src_len) src)
    (keystream (take (Z.to_nat (word32 (key_size c))) (key c))
               (zip_with Z.lxor (offset c) (take 16 iv)) (Z.to_nat src_len)).
Proof.
  intros Hiv Henc Hnn Hsrc Hroom.
  apply set_iv_outcome in Hiv
    as (_ & _ & _ & _ & _ & e1 & Hset & [[_ He1] | [H _]]); [ | discriminate H ].
  apply encrypt_outcome in Henc
    as (_ & _ & _ & _ & [(H & _) | (cap' & [= <-] & [(H & _) | (Hcap & e2 & Hctr & [(H & _) | (_ & He2 & _)])])]);
    try discriminate H.
  rewrite (word32_small _ Hnn) in Hctr.
  apply (ctr_xor _ _ _ _ _ _ _ _ _ _ _ _ Hset He1 Hctr He2); lia.
Qed.

(** The two-engine form of [packet_transform] below 2^32. *)
Lemma packet_transform_small (keystream : list Z → list Z → nat → list Z)
    `{!ctr_mode_laws keystream}
    (c e f g : srtp_aes_icm_ctx_t) (key_in iv src dst out : list Z) (src_len : Z)
    (dir : srtp_cipher_direction_t) (cap : Z) (dl : option Z) (w w' : world) :
  srtp_aes_icm_wolfssl_context_init c key_in w = Some (srtp_err_status_ok, e, w') →
  srtp_aes_icm_wolfssl_set_iv e iv dir = Some (srtp_err_status_ok, f) →
  srtp_aes_icm_wolfssl_encrypt f src src_len dst (Some cap)
  = (srtp_err_status_ok, g, out, dl) →
  0 ≤ src_len < 2 ^ 32 →
  (Z.to_nat src_len ≤ length src)%nat →
  (Z.to_nat cap ≤ length dst)%nat →
  take (Z.to_nat src_len) out =
  zip_with Z.lxor (take (Z.to_nat src_len) src)
    (keystream (take (Z.to_nat (key_size c)) key_in)
               (zip_with Z.lxor (salt_block c key_in) (take 16 iv))
               (Z.to_nat src_len)).
Proof.
  intros Hinit Hiv Henc Hnn Hsrc Hroom.
  pose proof (word32_small _ Hnn) as Hw.
  pose proof (encrypt_inv _ _ _ _ _ _ _ _ Henc) as (? & ? & [= <-] & Hcap & _).
  destruct (packet_transform keystream _ _ _ _ _ _ _ _ _ _ _ _ _ _ _
              Hinit Hiv Henc) as (Hout & _); [lia | lia | ].
  rewrite Hw in Hout. exact Hout.
Qed.

(** X14. One engine serves both ways: for 0 <= src_len < 2^32, after
    set_iv and encrypt of a plaintext, set_iv with the same nonce on the
    same engine and encrypt of the ciphertext give the plaintext back,
    all calls succeeding and the external primitive keeping to the
    counter-mode contract. *)
Theorem same_engine_roundtrip (keystream : list Z → list Z → nat → list Z)
    `{!ctr_mode_laws keystream}
    (c f1 g1 f2 g2 : srtp_aes_icm_ctx_t) (iv pt dst1 dst2 ct out : list Z)
    (src_len : Z) (d1 d2 : srtp_cipher_direction_t) (cap1 cap2 : Z)
    (dl1 dl2 : option Z) :
  0 ≤ src_len < 2 ^ 32 →
  (Z.to_nat src_len ≤ length pt)%nat →
  srtp_aes_icm_wolfssl_set_iv c iv d1 = Some (srtp_err_status_ok, f1) →
  srtp_aes_icm_wolfssl_encrypt f1 pt src_len dst1 (Some cap1)
  = (srtp_err_status_ok, g1, ct, dl1) →
  (Z.to_nat cap1 ≤ length dst1)%nat →
  srtp_aes_icm_wolfssl_set_iv g1 iv d2 = Some (srtp_err_status_ok, f2) →
  srtp_aes_icm_wolfssl_encrypt f2 ct src_len dst2 (Some cap2)
  = (srtp_err_status_ok, g2, out, dl2) →
  (Z.to_nat cap2 ≤ length dst2)%nat →
  take (Z.to_nat src_len) out = take (Z.to_nat src_len) pt.
Proof.
  intros Hnn Hpt Hiv1 Henc1 Hroom1 Hiv2 Henc2 Hroom2.
  pose proof (programmed_transform keystream _ _ _ _ _ _ _ _ _ _ _
                Hiv1 Henc1 Hnn Hpt Hroom1) as Hct.
  assert ((Z.to_nat src_len ≤ length ct)%nat) as Hsrc2.
  { assert (length (take (Z.to_nat src_len) ct) = Z.to_nat src_len) as Hlen
      by (rewrite Hct, length_zip_with, keystream_length, length_take; lia).
    rewrite length_take in Hlen. lia. }
  rewrite (programmed_transform keystream _ _ _ _ _ _ _ _ _ _ _
             Hiv2 Henc2 Hnn Hsrc2 Hroom2).
  apply set_iv_outcome in Hiv1 as (_ & _ & Ho1 & Hk1 & Hs1 & _).
  apply encrypt_outcome in Henc1 as (_ & Ho2 & Hk2 & Hs2 & _).
  rewrite Ho2, Hk2, Hs2, Ho1, Hk1, Hs1, Hct.
  apply zip_with_lxor_cancel. rewrite keystream_length, length_take. lia.
Qed.

(** X15. What a packet's ciphertext depends on: for 0 <= src_len < 2^32,
    two engines of the same key size, initialized with the same key and
    salt and given nonces with the same first sixteen octets, turn the
    same plaintext into the same ciphertext, whatever their storage held
    before, whatever the direction and whatever the destination buffers
    held. *)
Theorem packet_deterministic (keystream : list Z → list Z → nat → list Z)
    `{!ctr_mode_laws keystream}
    (c1 e1 f1 g1 c2 e2 f2 g2 : srtp_aes_icm_ctx_t)
    (key_in iv1 iv2 src dst1 dst2 out1 out2 : list Z) (src_len : Z)
    (d1 d2 : srtp_cipher_direction_t) (cap1 cap2 : Z) (dl1 dl2 : option Z)
    (w1 w1' w2 w2' : world) :
  0 ≤ src_len < 2 ^ 32 →
  (Z.to_nat src_len ≤ length src)%nat →
  key_size c1 = key_size c2 →
  take 16 iv1 = take 16 iv2 →
  srtp_aes_icm_wolfssl_context_init c1 key_in w1 = Some (srtp_err_status_ok, e1, w1') →
  srtp_aes_icm_wolfssl_set_iv e1 iv1 d1 = Some (srtp_err_status_ok, f1) →
  srtp_aes_icm_wolfssl_encrypt f1 src src_len dst1 (Some cap1)
  = (srtp_err_status_ok, g1, out1, dl1) →
  (Z.to_nat cap1 ≤ length dst1)%nat →
  srtp_aes_icm_wolfssl_context_init c2 key_in w2 = Some (srtp_err_status_ok, e2, w2') →
  srtp_aes_icm_wolfssl_set_iv e2 iv2 d2 = Some (srtp_err_status_ok, f2) →
  srtp_aes_icm_wolfssl_encrypt f2 src src_len dst2 (Some cap2)
  = (srtp_err_status_ok, g2, out2, dl2) →
  (Z.to_nat cap2 ≤ length dst2)%nat →
  take (Z.to_nat src_len) out1 = take (Z.to_nat src_len) out2.
Proof.
  intros Hnn Hsrc Hks Hiv Hinit1 Hiv1 Henc1 Hroom1 Hinit2 Hiv2 Henc2 Hroom2.
  rewrite (packet_transform_small keystream _ _ _ _ _ _ _ _ _ _ _ _ _ _ _
             Hinit1 Hiv1 Henc1 Hnn Hsrc Hroom1).
  rewrite (packet_transform_small keystream _ _ _ _ _ _ _ _ _ _ _ _ _ _ _
             Hinit2 Hiv2 Henc2 Hnn Hsrc Hroom2).
  unfold salt_block. rewrite Hks, Hiv. reflexivity.
Qed.

(** X16. Why a nonce must not be used twice under one key: for
    0 <= src_len < 2^32, when two engines of the same key size,
    initialized with the same key and salt and given the same nonce,
    encrypt two plaintexts, the exclusive-or of the two ciphertexts is the
    exclusive-or of the two plaintexts. *)
Theorem nonce_reuse_leaks_xor (keystream : list Z → list Z → nat → list Z)
    `{!ctr_mode_laws keystream}
    (c1 e1 f1 g1 c2 e2 f2 g2 : srtp_aes_icm_ctx_t)
    (key_in iv pt1 pt2 dst1 dst2 ct1 ct2 : list Z) (src_len : Z)
    (d1 d2 : srtp_cipher_direction_t) (cap1 cap2 : Z) (dl1 dl2 : option Z)
    (w1 w1' w2 w2' : world) :
  0 ≤ src_len < 2 ^ 32 →
  (Z.to_nat src_len ≤ length pt1)%nat →
  (Z.to_nat src_len ≤ length pt2)%nat →
  key_size c1 = key_size c2 →
  srtp_aes_icm_wolfssl_context_init c1 key_in w1 = Some (srtp_err_status_ok, e1, w1') →
  srtp_aes_icm_wolfssl_set_iv e1 iv d1 = Some (srtp_err_status_ok, f1) →
  srtp_aes_icm_wolfssl_encrypt f1 pt1 src_len dst1 (Some cap1)
  = (srtp_err_status_ok, g1, ct1, dl1) →
  (Z.to_nat cap1 ≤ length dst1)%nat →
  srtp_aes_icm_wolfssl_context_init c2 key_in w2 = Some (srtp_err_status_ok, e2, w2') →
  srtp_aes_icm_wolfssl_set_iv e2 iv d2 = Some (srtp_err_status_ok, f2) →
  srtp_aes_icm_wolfssl_encrypt f2 pt2 src_len dst2 (Some cap2)
  = (srtp_err_status_ok, g2, ct2, dl2) →
  (Z.to_nat cap2 ≤ length dst2)%nat →
  zip_with Z.lxor (take (Z.to_nat src_len) ct1) (take (Z.to_nat src_len) ct2)
  = zip_with Z.lxor (take (Z.to_nat src_len) pt1) (take (Z.to_nat src_len) pt2).
Proof.
  intros Hnn Hpt1 Hpt2 Hks Hinit1 Hiv1 Henc1 Hroom1 Hinit2 Hiv2 Henc2 Hroom2.
  rewrite (packet_transform_small keystream _ _ _ _ _ _ _ _ _ _ _ _ _ _ _
             Hinit1 Hiv1 Henc1 Hnn Hpt1 Hroom1).
  rewrite (packet_transform_small keystream _ _ _ _ _ _ _ _ _ _ _ _ _ _ _
             Hinit2 Hiv2 Henc2 Hnn Hpt2 Hroom2).
  unfold salt_block. rewrite Hks.
  apply zip_with_lxor_pad; rewrite keystream_length, length_take; lia.
Qed.

(** ** From allocate to deallocate *)

(** X17. Nothing is lost over an engine's life. For a valid length,
    storage granted three times, wc_AesInit accepting the new context, a
    key array of at least 32 octets and enough key material, allocate,
    initialize and deallocate all return
    ok (the cipher handed to deallocate pointing to the initialized
    state); exactly the three grants are used, and exactly three objects
    are released: the context, the zeroised state and the cipher. *)
Theorem lifecycle_releases_all (c : option srtp_cipher_t) (len tlen : Z)
    (key_in : list Z) (w : world) (pm qm rm : fresh_mem)
    (rest : list (option fresh_mem)) :
  len = 30 ∨ len = 38 ∨ len = 46 →
  supply w = Some pm :: Some qm :: Some rm :: rest →
  (32 ≤ length (key (as_icm qm)))%nat →
  0 ≤ (wc_AesInit (as_Aes rm)).1 →
  (Z.to_nat len ≤ length key_in)%nat →
  ∃ cv st w1 e w2 w3 z,
    srtp_aes_icm_wolfssl_alloc c len tlen w = Some (srtp_err_status_ok, Some cv, w1) ∧
    state cv = Some st ∧
    srtp_aes_icm_wolfssl_context_init st key_in w1 = Some (srtp_err_status_ok, e, w2) ∧
    srtp_aes_icm_wolfssl_dealloc (Some (set_state (Some e) cv)) w2
    = Some (srtp_err_status_ok, w3) ∧
    supply w3 = rest ∧
    zeroised z e = true ∧
    released w3 = released w ++
      [obj_Aes (wc_AesFree (wc_AesInit (as_Aes rm)).2); obj_icm z;
       obj_cipher (set_state (Some z) cv)].
Proof.
  intros Hlen Hsup Hkey Hinit Hin.
  destruct (alloc_ok c len tlen w pm qm _ Hlen Hsup) as (t & id & Halloc).
  destruct (wc_AesInit (as_Aes rm)) as [err a] eqn:Hwc. simpl in Hinit.
  set (st := mk_icm (counter (as_icm qm)) (offset (as_icm qm)) (key (as_icm qm))
                    (len - 14) None) in Halloc.
  assert (key_size st = 16 ∨ key_size st = 24 ∨ key_size st = 32) as Hsize
    by (simpl; lia).
  eexists _, st, _, _, _, _, _. split; [exact Halloc | ]. split; [reflexivity | ].
  split.
  { rewrite (init_creates st key_in (mk_world (Some rm :: rest) (released w))
               rm rest err a eq_refl eq_refl Hwc Hinit).
    apply (init_ok (set_ctx (Some a) st) key_in _ a eq_refl Hsize); simpl; lia. }
  split; [unfold srtp_aes_icm_wolfssl_dealloc; run_M; reflexivity | ].
  split; [reflexivity | ].
  split; [apply octet_string_set_to_zero_zeroised | ].
  simpl. rewrite <- !app_assoc. reflexivity.
Qed.

End Lifecycle.

(** * The reference primitive keeps to the contract *)

Lemma ref_keystream_length (k iv : list Z) (n : nat) :
  length (Ref.keystream k iv n) = n.
Proof. unfold Ref.keystream. rewrite length_fmap. apply length_seq. Qed.

Lemma ref_ctr_mode_laws : ctr_mode_laws (W := Ref.prim) Ref.keystream.
Proof.
  split.
  - exact ref_keystream_length.
  - intros a dst src sz e a' dst' Henc _ _ Hsrc Hdst.
    simpl in Henc. unfold Ref.AesCtrEncrypt in Henc.
    assert (length (zip_with Z.lxor (take (Z.to_nat sz) src)
                      (Ref.keystream [] [] (Z.to_nat sz))) = Z.to_nat sz) as Hz0
      by (rewrite length_zip_with, ref_keystream_length, length_take; lia).
    destruct a as [[[k iv] |] |]; injection Henc as <- <- <-; try (split; reflexivity).
    assert (length (zip_with Z.lxor (take (Z.to_nat sz) src)
                      (Ref.keystream k iv (Z.to_nat sz))) = Z.to_nat sz) as Hz
      by (rewrite length_zip_with, ref_keystream_length, length_take; lia).
    split.
    + rewrite length_app, Hz, length_drop. lia.
    + rewrite drop_app_length' by (symmetry; exact Hz). reflexivity.
  - intros a k len iv e1 a1 dst src sz e2 a2 dst' Hset He1 Henc He2 _ Hsrc Hdst.
    simpl in Hset, Henc. unfold Ref.AesSetKey in Hset. unfold Ref.AesCtrEncrypt in Henc.
    destruct a as [a |].
    + destruct ((len =? 16) || (len =? 24) || (len =? 32));
        injection Hset as <- <-; [ | unfold Ref.BAD_FUNC_ARG in He1; lia ].
      injection Henc as <- <- <-.
      apply take_app_length'.
      rewrite length_zip_with, ref_keystream_length, length_take. lia.
    + injection Hset as <- <-. unfold Ref.BAD_FUNC_ARG in He1. lia.
Qed.

(** * The theorems at concrete inputs *)

#[local] Existing Instance Ref.prim.

(** A length of 10 is refused and nothing is requested; a length of 30
    with storage granted twice gives an AES-128 engine. *)
Lemma alloc_checks_key_len_witness :
  srtp_aes_icm_wolfssl_alloc None 10 0 Ex.w0
  = Some (srtp_err_status_bad_param, None, Ex.w0) ∧
  ∃ cv st,
    srtp_aes_icm_wolfssl_alloc None 30 0 Ex.w0
    = Some (srtp_err_status_ok, Some cv, mk_world [Some Ex.junk] []) ∧
    algorithm cv = SRTP_AES_ICM_128 ∧ type cv = addr_srtp_aes_icm_128 ∧
    type_id (descriptor_at addr_srtp_aes_icm_128) = SRTP_AES_ICM_128 ∧
    key_len cv = 30 ∧ state cv = Some st ∧ key_size st = 16 ∧ ctx st = None.
Proof.
  split.
  - apply (proj1 (alloc_checks_key_len None 10 0 Ex.w0)); lia.
  - apply (proj2 (alloc_checks_key_len None 30 0 Ex.w0)
             SRTP_AES_ICM_128 addr_srtp_aes_icm_128 16 Ex.junk Ex.junk [Some Ex.junk]).
    + apply list_elem_of_here.
    + reflexivity.
Defined.

(** Eight octets do not fit a capacity of three. *)
Lemma encrypt_buffer_small_witness :
  3 < 8 ∧
  srtp_aes_icm_wolfssl_encrypt Ex.programmed (take 8 Ex.plaintext) 8 [0; 0; 0] (Some 3)
  = (srtp_err_status_buffer_small, Ex.programmed, [0; 0; 0], Some 3).
Proof.
  split; [lia | ]. apply encrypt_buffer_small. lia.
Defined.

(** Twenty octets into a buffer of 32: twenty are written, twelve stay. *)
Lemma encrypt_writes_src_len_witness :
  ∃ c' dst' dl',
    srtp_aes_icm_wolfssl_encrypt Ex.programmed Ex.plaintext 20 (replicate 32 0) (Some 32)
    = (srtp_err_status_ok, c', dst', dl') ∧
    dl' = Some 20 ∧ length dst' = 32%nat ∧ drop 20 dst' = replicate 12 0.
Proof.
  eexists _, _, _. split; [reflexivity | ].
  destruct (encrypt_writes_src_len Ref.keystream (ctr_mode_laws0 := ref_ctr_mode_laws)
              Ex.programmed Ex.plaintext 20 (replicate 32 0) 32 _ _ _ eq_refl)
    as (_ & Hdl & _ & Hlen & Hrest).
  - lia.
  - vm_compute. lia.
  - vm_compute. lia.
  - split; [exact Hdl | split; [exact Hlen | exact Hrest] ].
Defined.

(** A length of 2^32 + 5: five octets are transformed, the rest of the
    destination buffer stays, and 2^32 + 5 is stored at dst_len. *)
Lemma encrypt_narrows_src_len_witness :
  ∃ c' dst' dl',
    srtp_aes_icm_wolfssl_encrypt Ex.programmed Ex.plaintext 4294967301
      (replicate 32 0) (Some 4294967301)
    = (srtp_err_status_ok, c', dst', dl') ∧
    dl' = Some 4294967301 ∧ word32 4294967301 = 5 ∧
    length dst' = 32%nat ∧ drop 5 dst' = replicate 27 0.
Proof.
  eexists _, _, _. split; [reflexivity | ].
  destruct (encrypt_narrows_src_len Ref.keystream (ctr_mode_laws0 := ref_ctr_mode_laws)
              Ex.programmed Ex.plaintext 4294967301 (replicate 32 0) 4294967301
              _ _ _ eq_refl)
    as (Hdl & _ & _ & Hlen & Hrest).
  - lia.
  - vm_compute. lia.
  - vm_compute. lia.
  - split; [exact Hdl | split; [reflexivity | split; [exact Hlen | exact Hrest] ] ].
Defined.

(** The counter after set_iv on the initialized engine, for both
    directions. *)
Lemma set_iv_counter_witness :
  length Ex.nonce = 16%nat ∧
  ∃ st c',
    srtp_aes_icm_wolfssl_set_iv Ex.initialized Ex.nonce srtp_direction_encrypt
    = Some (st, c') ∧
    counter c' = zip_with Z.lxor (offset Ex.initialized) Ex.nonce ∧
    srtp_aes_icm_wolfssl_set_iv Ex.initialized Ex.nonce srtp_direction_decrypt
    = Some (st, c').
Proof.
  split; [reflexivity | ].
  destruct (set_iv_counter Ex.initialized Ex.nonce srtp_direction_encrypt eq_refl)
    as (st & c' & Hrun & Hcnt & _ & _ & _ & Hdir).
  exists st, c'. split; [exact Hrun | split; [exact Hcnt | apply Hdir] ].
Defined.

(** The reference primitive rejects a NULL context: set_iv on an engine
    that was never initialized returns the general failure status. *)
Lemma set_iv_rejected_witness :
  ∃ c',
    srtp_aes_icm_wolfssl_set_iv Ex.allocated Ex.nonce srtp_direction_encrypt
    = Some (srtp_err_status_fail, c') ∧
    counter c' = v128_xor (offset Ex.allocated) Ex.nonce ∧
    srtp_err_status_fail ≠ srtp_err_status_cipher_fail.
Proof.
  apply (set_iv_rejected Ex.allocated Ex.nonce Ex.nonce srtp_direction_encrypt).
  - reflexivity.
  - vm_compute. reflexivity.
Defined.

(** Initialize on the allocated AES-128 engine with the self-test key and
    salt. *)
Lemma init_offset_counter_witness :
  srtp_aes_icm_wolfssl_context_init Ex.allocated Ex.key_salt Ex.w0
  = Some (srtp_err_status_ok, Ex.initialized, mk_world [Some Ex.junk; Some Ex.junk] []) ∧
  offset Ex.initialized = drop 16 Ex.key_salt ++ [0; 0] ∧
  counter Ex.initialized = drop 16 Ex.key_salt ++ [0; 0] ∧
  offset Ex.initialized !! 14%nat = Some 0 ∧
  offset Ex.initialized !! 15%nat = Some 0.
Proof.
  assert (srtp_aes_icm_wolfssl_context_init Ex.allocated Ex.key_salt Ex.w0
          = Some (srtp_err_status_ok, Ex.initialized,
                  mk_world [Some Ex.junk; Some Ex.junk] [])) as Hrun
    by (vm_compute; reflexivity).
  split; [exact Hrun | ].
  destruct (init_offset_counter _ _ _ _ _ Hrun)
    as (_ & Hoff & Hcnt & _ & H14 & H15 & _ & _).
  split; [exact Hoff | split; [exact Hcnt | split; [exact H14 | exact H15] ] ].
Defined.

(** An engine with key_size 7 and storage for the context at hand:
    bad_param, with offset and counter overwritten and the key untouched. *)
Lemma init_bad_key_size_witness :
  ∃ c' w',
    srtp_aes_icm_wolfssl_context_init Ex.odd_sized Ex.key_salt Ex.w0
    = Some (srtp_err_status_bad_param, c', w') ∧
    offset c' = take 14 (drop 7 Ex.key_salt) ++ [0; 0] ∧
    counter c' = take 14 (drop 7 Ex.key_salt) ++ [0; 0] ∧
    key c' = key Ex.odd_sized.
Proof.
  apply (init_bad_key_size Ex.odd_sized Ex.key_salt Ex.w0).
  - simpl. lia.
  - simpl. lia.
  - simpl. lia.
  - vm_compute. lia.
  - right. exists Ex.junk, [Some Ex.junk; Some Ex.junk].
    split; [reflexivity | vm_compute; discriminate].
Defined.

(** The plaintext through the encrypt entry of one AES-128 engine and the
    ciphertext through the decrypt entry of another, with the same key,
    salt and nonce. *)
Lemma icm_roundtrip_witness :
  ∃ g1 ct dl1 g2 out dl2,
    encrypt srtp_aes_icm_128 Ex.programmed Ex.plaintext 20 (replicate 32 0) (Some 32)
    = (srtp_err_status_ok, g1, ct, dl1) ∧
    decrypt srtp_aes_icm_128 Ex.programmed ct 20 (replicate 32 0) (Some 32)
    = (srtp_err_status_ok, g2, out, dl2) ∧
    take 20 ct ≠ Ex.plaintext ∧
    take 20 out = Ex.plaintext.
Proof.
  eexists _, _, _, _, _, _.
  split; [reflexivity | ].
  split; [reflexivity | ].
  split; [vm_compute; discriminate | ].
  refine (icm_roundtrip Ref.keystream (ctr_mode_laws0 := ref_ctr_mode_laws)
            addr_srtp_aes_icm_128
            Ex.allocated Ex.initialized Ex.programmed _
            Ex.allocated Ex.initialized Ex.programmed _
            Ex.key_salt Ex.nonce Ex.plaintext (replicate 32 0) (replicate 32 0) _ _ 20
            srtp_direction_encrypt srtp_direction_decrypt 32 32 _ _
            Ex.w0 (mk_world [Some Ex.junk; Some Ex.junk] [])
            Ex.w0 (mk_world [Some Ex.junk; Some Ex.junk] [])
            _ _ _ _ _ _ _ _ _ _ _).
  - lia.
  - vm_compute. lia.
  - reflexivity.
  - reflexivity.
  - reflexivity.
  - reflexivity.
  - vm_compute. lia.
  - reflexivity.
  - reflexivity.
  - reflexivity.
  - vm_compute. lia.
Defined.

(** The same two engines with a length of 2^32 + 5: the decrypt entry
    gives back five octets of the plaintext and leaves the rest of its
    destination buffer as it was. *)
Lemma roundtrip_narrowed_witness :
  (∀ q, encrypt (descriptor_at q) = decrypt (descriptor_at q)) ∧
  ∃ g1 ct dl1 g2 out dl2,
    encrypt srtp_aes_icm_128 Ex.programmed Ex.plaintext 4294967301
      (replicate 32 0) (Some 4294967301)
    = (srtp_err_status_ok, g1, ct, dl1) ∧
    decrypt srtp_aes_icm_128 Ex.programmed ct 4294967301
      (replicate 32 0) (Some 4294967301)
    = (srtp_err_status_ok, g2, out, dl2) ∧
    dl2 = Some 4294967301 ∧
    take 5 out = take 5 Ex.plaintext ∧
    drop 5 out = replicate 27 0 ∧
    take 20 out ≠ Ex.plaintext.
Proof.
  pose proof (λ g1 g2 ct out dl1 dl2 w1' w2',
              roundtrip_narrowed Ref.keystream (ctr_mode_laws0 := ref_ctr_mode_laws)
                addr_srtp_aes_icm_128
                Ex.allocated Ex.initialized Ex.programmed g1
                Ex.allocated Ex.initialized Ex.programmed g2
                Ex.key_salt Ex.nonce Ex.plaintext (replicate 32 0) (replicate 32 0)
                ct out 4294967301
                srtp_direction_encrypt srtp_direction_decrypt 4294967301 4294967301
                dl1 dl2 Ex.w0 w1' Ex.w0 w2') as Hthm.
  split.
  - exact (proj1 (Hthm Ex.programmed Ex.programmed [] [] None None Ex.w0 Ex.w0)).
  - eexists _, _, _, _, _, _.
    split; [reflexivity | ].
    split; [reflexivity | ].
    epose proof (proj2 (Hthm _ _ _ _ _ _ (mk_world [Some Ex.junk; Some Ex.junk] [])
                        (mk_world [Some Ex.junk; Some Ex.junk] []))) as H.
    edestruct H as (Hdl & _ & Htake & Hdrop).
    + lia.
    + vm_compute. lia.
    + vm_compute. lia.
    + vm_compute. lia.
    + reflexivity.
    + reflexivity.
    + reflexivity.
    + reflexivity.
    + reflexivity.
    + reflexivity.
    + reflexivity.
    + split; [exact Hdl | ]. split; [exact Htake | ]. split; [exact Hdrop | ].
      vm_compute. discriminate.
Defined.

(** Deallocate on an initialized AES-128 cipher: the context, the zeroised
    state and the cipher are released, in this order. *)
Example dealloc_initialized :
  srtp_aes_icm_wolfssl_dealloc (Some Ex.cipher) Ex.w_empty
  = Some (srtp_err_status_ok,
          mk_world []
            [obj_Aes Ref.idle;
             obj_icm (mk_icm (replicate 16 0) (replicate 16 0) (replicate 32 0) 0 None);
             obj_cipher (mk_cipher addr_srtp_aes_icm_128
                           (Some (mk_icm (replicate 16 0) (replicate 16 0)
                                         (replicate 32 0) 0 None))
                           30 SRTP_AES_ICM_128)]).
Proof. reflexivity. Qed.

(** * Where the code departs from the wording *)

(** C7 as worded: a rejected key setup would make set_iv return
    cipher_fail. The reference primitive rejects the NULL context of an
    engine that was never initialized, and set_iv returns the general
    failure status. *)
Lemma set_iv_rejected_not_cipher_fail :
  ¬ (∀ (W : wolfcrypt) (c : srtp_aes_icm_ctx_t) (iv nonce : list Z)
       (dir : srtp_cipher_direction_t),
       v128_copy_octet_string iv = Some nonce →
       (wc_AesSetKey (ctx c) (key c) (word32 (key_size c))
          (v128_xor (offset c) nonce) AES_ENCRYPTION).1 < 0 →
       ∃ c', srtp_aes_icm_wolfssl_set_iv c iv dir
             = Some (srtp_err_status_cipher_fail, c')).
Proof.
  intros Hclaim.
  destruct (Hclaim Ref.prim Ex.allocated Ex.nonce Ex.nonce srtp_direction_encrypt)
    as [c' Hrun].
  - reflexivity.
  - vm_compute. reflexivity.
  - vm_compute in Hrun. discriminate Hrun.
Qed.

(** C10 as worded: every engine with an unsupported key_size would get
    bad_param with offset and counter overwritten. With no context yet and
    no storage to be had, initialize returns alloc_fail before it touches
    either. *)
Lemma init_bad_key_size_alloc_fail :
  ¬ (∀ (W : wolfcrypt) (c : srtp_aes_icm_ctx_t) (key_in : list Z) (w : world),
       key_size c ≠ 16 → key_size c ≠ 24 → key_size c ≠ 32 →
       (Z.to_nat (key_size c) + 14 ≤ length key_in)%nat →
       ∃ c' w',
         srtp_aes_icm_wolfssl_context_init c key_in w
         = Some (srtp_err_status_bad_param, c', w') ∧
         offset c' = take 14 (drop (Z.to_nat (key_size c)) key_in) ++ [0; 0] ∧
         counter c' = take 14 (drop (Z.to_nat (key_size c)) key_in) ++ [0; 0] ∧
         key c' = key c).
Proof.
  intros Hclaim.
  destruct (Hclaim Ref.prim Ex.odd_sized Ex.key_salt Ex.w_empty)
    as (c' & w' & Hrun & _).
  - simpl. lia.
  - simpl. lia.
  - simpl. lia.
  - vm_compute. lia.
  - vm_compute in Hrun. discriminate Hrun.
Qed.

(** * The life-cycle theorems at concrete inputs *)

(** No storage at all, and storage for the cipher only. *)
Lemma alloc_storage_refused_witness :
  srtp_aes_icm_wolfssl_alloc None 30 0 Ex.w_empty
  = Some (srtp_err_status_alloc_fail, None, Ex.w_empty) ∧
  srtp_aes_icm_wolfssl_alloc None 30 0 (mk_world [Some Ex.junk] [])
  = Some (srtp_err_status_alloc_fail, None,
          mk_world [] [obj_cipher Ex.junk_cipher]).
Proof.
  split.
  - apply (proj1 (alloc_storage_refused None 30 0 Ex.w_empty (or_introl eq_refl))
             Ex.w_empty eq_refl).
  - apply (proj2 (alloc_storage_refused None 30 0 (mk_world [Some Ex.junk] [])
                    (or_introl eq_refl))
             Ex.junk Ex.w_empty Ex.w_empty eq_refl eq_refl).
Defined.

(** No storage for the context, and not one octet of input. *)
Lemma init_storage_refused_witness :
  srtp_aes_icm_wolfssl_context_init Ex.allocated [] Ex.w_empty
  = Some (srtp_err_status_alloc_fail, Ex.allocated, Ex.w_empty).
Proof.
  apply (init_storage_refused Ex.allocated [] Ex.w_empty Ex.w_empty eq_refl eq_refl).
Defined.

(** The declining primitive: the one grant is released again. *)
Lemma init_primitive_declines_witness :
  srtp_aes_icm_wolfssl_context_init Declining.engine Ex.key_salt Declining.w1
  = Some (srtp_err_status_init_fail, Declining.engine,
          mk_world (W := Declining.prim) [] [obj_Aes (W := Declining.prim) (Ref.keyed [1] [2])]).
Proof.
  apply (init_primitive_declines (W := Declining.prim) Declining.engine Ex.key_salt
           Declining.w1 (mk_world (W := Declining.prim) [] []) Declining.junk
           eq_refl eq_refl).
  vm_compute. reflexivity.
Defined.

(** A second initialize on the initialized engine leaves the allocation
    service alone. *)
Lemma init_reuses_context_witness :
  srtp_aes_icm_wolfssl_context_init Ex.initialized Ex.key_salt Ex.w0
  = Some (srtp_err_status_ok, Ex.initialized, Ex.w0) ∧
  Ex.w0 = Ex.w0 ∧ ctx Ex.initialized = Some Ref.idle ∧
  (srtp_err_status_ok = srtp_err_status_ok ∨
   srtp_err_status_ok = srtp_err_status_bad_param).
Proof.
  assert (srtp_aes_icm_wolfssl_context_init Ex.initialized Ex.key_salt Ex.w0
          = Some (srtp_err_status_ok, Ex.initialized, Ex.w0)) as Hrun
    by (vm_compute; reflexivity).
  split; [exact Hrun | ].
  exact (init_reuses_context Ex.initialized Ex.key_salt Ex.w0 Ref.idle _ _ _
           eq_refl Hrun).
Defined.

(** The allocated AES-128 engine and the self-test key and salt. *)
Lemma init_succeeds_witness :
  ∃ c' w',
    srtp_aes_icm_wolfssl_context_init Ex.allocated Ex.key_salt Ex.w0
    = Some (srtp_err_status_ok, c', w') ∧
    take 16 (key c') = take 16 Ex.key_salt ∧
    drop 16 (key c') = replicate 16 0xcc ∧
    key_size c' = 16 ∧ ctx c' ≠ None ∧ released w' = [].
Proof.
  apply (init_succeeds Ex.allocated Ex.key_salt Ex.w0).
  - left. reflexivity.
  - vm_compute. discriminate.
  - vm_compute. lia.
  - right. exists Ex.junk, [Some Ex.junk; Some Ex.junk].
    split; [reflexivity | vm_compute; discriminate].
Defined.

(** Thirty octets of key material through allocate and initialize. *)
Lemma alloc_then_init_witness :
  ∃ cv st w1 e w2,
    srtp_aes_icm_wolfssl_alloc None 30 0 Ex.w0 = Some (srtp_err_status_ok, Some cv, w1) ∧
    state cv = Some st ∧
    srtp_aes_icm_wolfssl_context_init st Ex.key_salt w1 = Some (srtp_err_status_ok, e, w2) ∧
    key_size e + SRTP_SALT_LEN = 30 ∧
    take (Z.to_nat (key_size e)) (key e) ++ take 14 (offset e) = Ex.key_salt ∧
    supply w2 = [].
Proof.
  apply (alloc_then_init None 30 0 Ex.key_salt Ex.w0 Ex.junk Ex.junk Ex.junk []).
  - left. reflexivity.
  - reflexivity.
  - vm_compute. lia.
  - vm_compute. discriminate.
  - reflexivity.
Defined.

(** The steps from the allocated engine to the programmed one. *)
Lemma allocated_to_programmed :
  rtc api_step (Ex.allocated, Ex.w0)
               (Ex.programmed, mk_world [Some Ex.junk; Some Ex.junk] []).
Proof.
  eapply rtc_l.
  - apply (step_init Ex.allocated Ex.key_salt Ex.w0 srtp_err_status_ok Ex.initialized
             (mk_world [Some Ex.junk; Some Ex.junk] [])).
    vm_compute. reflexivity.
  - apply rtc_once. apply step_packet.
    apply (step_set_iv Ex.initialized Ex.nonce srtp_direction_encrypt
             srtp_err_status_ok Ex.programmed).
    vm_compute. reflexivity.
Defined.

Lemma key_size_immutable_witness :
  key_size Ex.programmed = key_size Ex.allocated.
Proof.
  exact (key_size_immutable _ _ allocated_to_programmed).
Defined.

(** The steps from the initialized engine on, with a second initialize
    among them. *)
Lemma initialized_to_programmed :
  rtc api_step (Ex.initialized, Ex.w0) (Ex.programmed, Ex.w0).
Proof.
  eapply rtc_l.
  - apply (step_init Ex.initialized Ex.key_salt Ex.w0 srtp_err_status_ok
             Ex.initialized Ex.w0).
    vm_compute. reflexivity.
  - apply rtc_once. apply step_packet.
    apply (step_set_iv Ex.initialized Ex.nonce srtp_direction_decrypt
             srtp_err_status_ok Ex.programmed).
    vm_compute. reflexivity.
Defined.

Lemma offset_low_octets_stay_zero_witness :
  low_octets_zero (offset Ex.initialized) = true ∧
  low_octets_zero (offset Ex.programmed) = true.
Proof.
  split; [reflexivity | ].
  exact (offset_low_octets_stay_zero _ _ initialized_to_programmed eq_refl).
Defined.

(** After a set_iv and an encrypt, set_iv with a zero nonce gives the
    offset back. *)
Lemma counter_rederived_witness :
  ∃ st c'',
    srtp_aes_icm_wolfssl_set_iv Ex.programmed (replicate 16 0) srtp_direction_encrypt
    = Some (st, c'') ∧
    counter c'' = offset Ex.initialized.
Proof.
  assert (rtc packet_step Ex.initialized Ex.programmed) as Hseq.
  { apply rtc_once.
    apply (step_set_iv Ex.initialized Ex.nonce srtp_direction_encrypt
             srtp_err_status_ok Ex.programmed).
    vm_compute. reflexivity. }
  eexists _, _. split; [vm_compute; reflexivity | ].
  refine (proj1 (counter_rederived Ex.initialized Ex.programmed _ (replicate 16 0)
                   srtp_direction_encrypt srtp_err_status_ok Hseq _)).
  vm_compute. reflexivity.
Defined.

(** The same nonce in both directions: equal counters, equal nonces. *)
Lemma set_iv_injective_witness :
  Ex.nonce = Ex.nonce.
Proof.
  refine (set_iv_injective Ex.initialized Ex.programmed Ex.programmed Ex.nonce Ex.nonce
            srtp_direction_encrypt srtp_direction_decrypt
            srtp_err_status_ok srtp_err_status_ok _ _ _ _ _ _).
  - reflexivity.
  - reflexivity.
  - reflexivity.
  - vm_compute. reflexivity.
  - vm_compute. reflexivity.
  - reflexivity.
Defined.

(** The nonce of the examples ends in two zero octets, and so does the
    counter. *)
Lemma set_iv_block_counter_witness :
  drop 14 (counter Ex.programmed) = [0; 0] ∧
  take 14 (counter Ex.programmed)
  = zip_with Z.lxor (drop 16 Ex.key_salt) (take 14 Ex.nonce).
Proof.
  refine (set_iv_block_counter Ex.allocated Ex.initialized Ex.programmed
            Ex.key_salt Ex.nonce Ex.w0 (mk_world [Some Ex.junk; Some Ex.junk] [])
            srtp_direction_encrypt srtp_err_status_ok _ _ _).
  - vm_compute. reflexivity.
  - vm_compute. reflexivity.
  - reflexivity.
Defined.

(** The reference primitive refuses to transform with a NULL context. *)
Lemma encrypt_primitive_fails_witness :
  ∃ c',
    srtp_aes_icm_wolfssl_encrypt Ex.allocated Ex.plaintext 20 (replicate 32 0) (Some 32)
    = (srtp_err_status_cipher_fail, c', replicate 32 0, Some 32) ∧
    counter c' = counter Ex.allocated ∧ offset c' = offset Ex.allocated ∧
    key c' = key Ex.allocated ∧ key_size c' = key_size Ex.allocated.
Proof.
  apply (encrypt_primitive_fails Ex.allocated Ex.plaintext 20 (replicate 32 0) 32).
  - lia.
  - vm_compute. reflexivity.
Defined.

(** Encrypt, set_iv again, and encrypt the ciphertext, on one engine. *)
Lemma same_engine_roundtrip_witness :
  ∃ g1 ct dl1 f2 g2 out dl2,
    srtp_aes_icm_wolfssl_encrypt Ex.programmed Ex.plaintext 20 (replicate 32 0) (Some 32)
    = (srtp_err_status_ok, g1, ct, dl1) ∧
    srtp_aes_icm_wolfssl_set_iv g1 Ex.nonce srtp_direction_decrypt
    = Some (srtp_err_status_ok, f2) ∧
    srtp_aes_icm_wolfssl_encrypt f2 ct 20 (replicate 32 0) (Some 32)
    = (srtp_err_status_ok, g2, out, dl2) ∧
    take 20 ct ≠ Ex.plaintext ∧
    take 20 out = Ex.plaintext.
Proof.
  eexists _, _, _, _, _, _, _.
  split; [reflexivity | ].
  split; [reflexivity | ].
  split; [reflexivity | ].
  split; [vm_compute; discriminate | ].
  refine (same_engine_roundtrip Ref.keystream (ctr_mode_laws0 := ref_ctr_mode_laws)
            Ex.initialized Ex.programmed _ _ _
            Ex.nonce Ex.plaintext (replicate 32 0) (replicate 32 0) _ _ 20
            srtp_direction_encrypt srtp_direction_decrypt 32 32 _ _
            _ _ _ _ _ _ _ _).
  - lia.
  - vm_compute. lia.
  - reflexivity.
  - reflexivity.
  - vm_compute. lia.
  - reflexivity.
  - reflexivity.
  - vm_compute. lia.
Defined.

(** A newly allocated engine and one that was keyed before, different
    directions and different destination contents: one ciphertext. *)
Lemma packet_deterministic_witness :
  ∃ e2 w2' f2 g2 out2 dl2 ct,
    Ex.packet srtp_direction_encrypt Ex.plaintext 20 = Some ct ∧
    srtp_aes_icm_wolfssl_context_init Ex.programmed Ex.key_salt Ex.w_empty
    = Some (srtp_err_status_ok, e2, w2') ∧
    srtp_aes_icm_wolfssl_set_iv e2 Ex.nonce srtp_direction_decrypt
    = Some (srtp_err_status_ok, f2) ∧
    srtp_aes_icm_wolfssl_encrypt f2 Ex.plaintext 20 (replicate 24 0xff) (Some 24)
    = (srtp_err_status_ok, g2, out2, dl2) ∧
    take 20 ct = take 20 out2.
Proof.
  exists (set_counter (counter Ex.initialized) Ex.programmed), Ex.w_empty.
  eexists _, _, _, _, _.
  split; [reflexivity | ].
  split; [reflexivity | ].
  split; [reflexivity | ].
  split; [reflexivity | ].
  refine (packet_deterministic Ref.keystream (ctr_mode_laws0 := ref_ctr_mode_laws)
            Ex.allocated Ex.initialized Ex.programmed _
            Ex.programmed (set_counter (counter Ex.initialized) Ex.programmed) _ _
            Ex.key_salt Ex.nonce Ex.nonce Ex.plaintext
            (replicate 32 0) (replicate 24 0xff) _ _ 20
            srtp_direction_encrypt srtp_direction_decrypt 32 24 _ _
            Ex.w0 (mk_world [Some Ex.junk; Some Ex.junk] [])
            Ex.w_empty Ex.w_empty
            _ _ _ _ _ _ _ _ _ _ _ _).
  - lia.
  - vm_compute. lia.
  - reflexivity.
  - reflexivity.
  - reflexivity.
  - reflexivity.
  - reflexivity.
  - vm_compute. lia.
  - reflexivity.
  - reflexivity.
  - reflexivity.
  - vm_compute. lia.
Defined.

(** The plaintext of the examples and twenty zero octets under one key
    and nonce. *)
Lemma nonce_reuse_leaks_xor_witness :
  ∃ ct1 ct2,
    Ex.packet srtp_direction_encrypt Ex.plaintext 20 = Some ct1 ∧
    Ex.packet srtp_direction_encrypt (replicate 20 0) 20 = Some ct2 ∧
    take 20 ct1 ≠ Ex.plaintext ∧
    zip_with Z.lxor (take 20 ct1) (take 20 ct2) = Ex.plaintext.
Proof.
  eexists _, _.
  split; [reflexivity | ].
  split; [reflexivity | ].
  split; [vm_compute; discriminate | ].
  refine (nonce_reuse_leaks_xor Ref.keystream (ctr_mode_laws0 := ref_ctr_mode_laws)
            Ex.allocated Ex.initialized Ex.programmed _
            Ex.allocated Ex.initialized Ex.programmed _
            Ex.key_salt Ex.nonce Ex.plaintext (replicate 20 0)
            (replicate 32 0) (replicate 32 0) _ _ 20
            srtp_direction_encrypt srtp_direction_encrypt 32 32 _ _
            Ex.w0 (mk_world [Some Ex.junk; Some Ex.junk] [])
            Ex.w0 (mk_world [Some Ex.junk; Some Ex.junk] [])
            _ _ _ _ _ _ _ _ _ _ _ _).
  - lia.
  - vm_compute. lia.
  - vm_compute. lia.
  - reflexivity.
  - reflexivity.
  - reflexivity.
  - reflexivity.
  - vm_compute. lia.
  - reflexivity.
  - reflexivity.
  - reflexivity.
  - vm_compute. lia.
Defined.

(** A whole life on three grants. *)
Lemma lifecycle_releases_all_witness :
  ∃ cv st w1 e w2 w3 z,
    srtp_aes_icm_wolfssl_alloc None 30 0 Ex.w0 = Some (srtp_err_status_ok, Some cv, w1) ∧
    state cv = Some st ∧
    srtp_aes_icm_wolfssl_context_init st Ex.key_salt w1 = Some (srtp_err_status_ok, e, w2) ∧
    srtp_aes_icm_wolfssl_dealloc (Some (set_state (Some e) cv)) w2
    = Some (srtp_err_status_ok, w3) ∧
    supply w3 = [] ∧
    zeroised z e = true ∧
    released w3 = [obj_Aes Ref.idle; obj_icm z; obj_cipher (set_state (Some z) cv)].
Proof.
  apply (lifecycle_releases_all None 30 0 Ex.key_salt Ex.w0 Ex.junk Ex.junk Ex.junk []).
  - left. reflexivity.
  - reflexivity.
  - vm_compute. lia.
  - vm_compute. discriminate.
  - vm_compute. lia.
Defined.
